(** * IntercoreComms high-level application (main_a7.c)

    A shallow embedding of the high-level side of the inter-core mailbox
    sample: the message sender with its cycling counter, the receive
    handler with the reboot-sentinel classifier, initialisation, the
    dispatch loop, shutdown and the restart loop of [main].

    The program is single-threaded C over a handful of file-scope
    variables.  It is modelled as state passing over a record of those
    variables, every call that leaves the program (applibs, libc, the
    event-loop timer utilities, the log) being appended to a trace.  What
    such a call returns is read from a script supplied by the
    environment. *)

From Stdlib Require Import ZArith List String Ascii Bool Lia DecimalString.
Import ListNotations.

Local Open Scope string_scope.
Local Open Scope list_scope.
Local Open Scope Z_scope.

(** ** C data *)

(** [#define RECV_BUFF_SIZE 32] *)
Definition RECV_BUFF_SIZE : Z := 32.

(** [sizeof(txMessage)] for [static char txMessage[48]]. *)
Definition TX_MESSAGE_SIZE : Z := 48.

(** errno value of an interrupted call. *)
Definition EINTR : Z := 4.

(** The null pointer. *)
Definition NULL : Z := 0.

(** The exit codes of the application, [typedef enum { ... } ExitCode]. *)
Inductive ExitCode : Type :=
| ExitCode_Success
| ExitCode_TermHandler_SigTerm
| ExitCode_TimerHandler_Consume
| ExitCode_SendMsg_Send
| ExitCode_SocketHandler_Recv
| ExitCode_Init_EventLoop
| ExitCode_Init_SendTimer
| ExitCode_Init_Connection
| ExitCode_Init_SetSockOpt
| ExitCode_Init_RegisterIo
| ExitCode_Main_EventLoopFail
| ExitCode_Main_EventLoopSimReboot.

(** The integer each enumerator stands for. *)
Definition ExitCode_value (e : ExitCode) : Z :=
  match e with
  | ExitCode_Success => 0
  | ExitCode_TermHandler_SigTerm => 1
  | ExitCode_TimerHandler_Consume => 2
  | ExitCode_SendMsg_Send => 3
  | ExitCode_SocketHandler_Recv => 4
  | ExitCode_Init_EventLoop => 5
  | ExitCode_Init_SendTimer => 6
  | ExitCode_Init_Connection => 7
  | ExitCode_Init_SetSockOpt => 8
  | ExitCode_Init_RegisterIo => 9
  | ExitCode_Main_EventLoopFail => 10
  | ExitCode_Main_EventLoopSimReboot => 11
  end.

Definition ExitCode_eqb (a b : ExitCode) : bool :=
  ExitCode_value a =? ExitCode_value b.

(** What [EventLoop_Run] reports. *)
Inductive EventLoop_Run_Result : Type :=
| EventLoop_Run_Failed
| EventLoop_Run_FinishedEmpty
| EventLoop_Run_Finished.

Definition is_Run_Failed (r : EventLoop_Run_Result) : bool :=
  match r with EventLoop_Run_Failed => true | _ => false end.

(** A C [int]: 32 bits, two's complement. *)
Definition int_wrap (z : Z) : Z := (z + 2 ^ 31) mod 2 ^ 32 - 2 ^ 31.

(** ** Characters and C strings

    A [char] array is a [string]: one [ascii] per byte, NUL included when
    the array holds one.  A string literal is written without its
    terminator; reading just past the last character of a [string] yields
    NUL, which is exactly where the literal's terminator sits. *)

Definition NUL : ascii := Ascii.zero.

Definition char_value (c : ascii) : Z := Z.of_nat (nat_of_ascii c).

Definition head_char (s : string) : ascii :=
  match s with
  | EmptyString => NUL
  | String c _ => c
  end.

Definition tail_chars (s : string) : string :=
  match s with
  | EmptyString => EmptyString
  | String _ t => t
  end.

(** [strncmp(s1, s2, n)]: compare at most [n] characters, as unsigned
    bytes, stopping after a NUL that both strings share. *)
Fixpoint strncmp (s1 s2 : string) (n : nat) : Z :=
  match n with
  | O => 0
  | S n' =>
      let c1 := head_char s1 in
      let c2 := head_char s2 in
      if negb (Ascii.eqb c1 c2) then char_value c1 - char_value c2
      else if Ascii.eqb c1 NUL then 0
      else strncmp (tail_chars s1) (tail_chars s2) n'
  end.

(** [isprint] in the C locale. *)
Definition isprint (c : ascii) : bool :=
  (32 <=? char_value c) && (char_value c <=? 126).

(** ** Formatting *)

Fixpoint zeros (n : nat) : string :=
  match n with
  | O => EmptyString
  | S n' => String "0" (zeros n')
  end.

(** Left-pads [digits] with the character 0 up to [width] characters. *)
Definition zero_pad (width : nat) (digits : string) : string :=
  (zeros (width - String.length digits) ++ digits)%string.

(** The digits of a non-negative number, as [%d] prints them. *)
Definition decimal_digits (n : Z) : string :=
  NilZero.string_of_uint (N.to_uint (Z.to_N n)).

(** The conversion [%02d]: minimum field width 2, padded with zeros,
    which go between the sign and the digits. *)
Definition format_02d (n : Z) : string :=
  if n <? 0 then ("-" ++ zero_pad 1 (decimal_digits (- n)))%string
  else zero_pad 2 (decimal_digits n).

(** [snprintf(buf, size, ...)] keeps at most [size - 1] characters of the
    formatted text and terminates them; the result is what [strlen] and
    [%s] see in the buffer afterwards. *)
Definition snprintf (size : Z) (formatted : string) : string :=
  substring 0 (Z.to_nat (size - 1)) formatted.

(** The text [SendMessageToRTApp] formats into [txMessage]:
    [snprintf(txMessage, sizeof(txMessage), "hl-app-to-rt-app-adding%02d", iter)]. *)
Definition txMessage_of (iter : Z) : string :=
  snprintf TX_MESSAGE_SIZE ("hl-app-to-rt-app-adding" ++ format_02d iter)%string.

(** [iter = (iter + 1) % 100] on [int]; [%] truncates towards zero. *)
Definition next_iter (iter : Z) : Z := Z.rem (int_wrap (iter + 1)) 100.

(** ** The sentinel classifier *)

(** [MsgParseIsReboot(rxBuf, len)].  [rxBuf] is [None] for a null pointer,
    otherwise the contents of the receive buffer. *)
Definition MsgParseIsReboot (rxBuf : option string) (len : Z) : bool :=
  match rxBuf with
  | None => false
  | Some buf =>
      if len <=? 0 then false
      else strncmp buf "reboot!!" (Z.to_nat len) =? 0
  end.

(** ** Program state, trace and environment *)

(** The file-scope variables, [errno], and the function-local
    [static int iter] of [SendMessageToRTApp], which lives as long as
    the process does. *)
Record globals : Type := mkGlobals {
  sockFd : Z;
  eventLoop : Z;
  sendTimer : Z;
  socketEventReg : Z;
  exitCode : ExitCode;
  iter : Z;
  errno : Z
}.

(** The variables as their initialisers leave them at process start. *)
Definition initial_globals : globals :=
  {| sockFd := -1; eventLoop := NULL; sendTimer := NULL;
     socketEventReg := NULL; exitCode := ExitCode_Success;
     iter := 0; errno := 0 |}.

(** The calls that leave the program, with the arguments that matter. *)
Inductive call : Type :=
| sigaction_SIGTERM
| EventLoop_Create
| CreateEventLoopPeriodicTimer (el tv_sec tv_nsec : Z)
| Application_Connect (componentId : string)
| setsockopt_SO_RCVTIMEO (fd tv_sec tv_usec : Z)
| EventLoop_RegisterIo (el fd : Z)
| EventLoop_Run (el timeout : Z) (process_one_event : bool)
| ConsumeEventLoopTimerEvent (timer : Z)
| send (fd : Z) (buf : string) (len : Z)
| recv (fd size : Z)
| DisposeEventLoopTimer (timer : Z)
| EventLoop_UnregisterIo (el reg : Z)
| EventLoop_Close (el : Z)
| close (fd : Z)
| nanosleep (tv_sec tv_nsec : Z).

(** An argument of [Log_Debug]; [ArgStrerror e] is [strerror(e)]. *)
Inductive log_arg : Type :=
| ArgInt (z : Z)
| ArgStr (s : string)
| ArgChar (c : ascii)
| ArgStrerror (e : Z).

(** What the outside sees of a run, in order.  A format string is kept as
    the source writes it, escapes included. *)
Inductive event : Type :=
| Log (fmt : string) (args : list log_arg)
| Call (c : call).

Definition trace : Type := list event.

(** What the environment answers to a call: the value returned and the
    [errno] the call leaves behind. *)
Record answer : Type := mkAnswer { ret_val : Z; ret_errno : Z }.

(** Result of running a piece of the program: its value, the variables
    afterwards, and what it did. *)
Record res (A : Type) : Type := mkRes { val : A; st : globals; tr : trace }.
Arguments mkRes {A} _ _ _.
Arguments val {A} _.
Arguments st {A} _.
Arguments tr {A} _.

Definition M (A : Type) : Type := globals -> res A.

Definition ret {A : Type} (a : A) : M A := fun g => mkRes a g [].

Definition bind {A B : Type} (m : M A) (k : A -> M B) : M B :=
  fun g =>
    match m g with
    | mkRes a g1 t1 =>
        match k a g1 with
        | mkRes b g2 t2 => mkRes b g2 (t1 ++ t2)
        end
    end.

Declare Scope prog_scope.
Delimit Scope prog_scope with prog.
Notation "x <- c1 ;; c2" := (bind c1 (fun x => c2))
  (at level 100, c1 at next level, right associativity) : prog_scope.
Notation "c1 ;; c2" := (bind c1 (fun _ => c2))
  (at level 100, right associativity) : prog_scope.
Local Open Scope prog_scope.

Definition get {A : Type} (f : globals -> A) : M A := fun g => mkRes (f g) g [].

Definition emit (e : event) : M unit := fun g => mkRes tt g [e].

Definition Log_Debug (fmt : string) (args : list log_arg) : M unit :=
  emit (Log fmt args).

(** Assignments to the variables. *)
Definition with_sockFd (v : Z) (g : globals) : globals :=
  {| sockFd := v; eventLoop := eventLoop g; sendTimer := sendTimer g;
     socketEventReg := socketEventReg g; exitCode := exitCode g;
     iter := iter g; errno := errno g |}.

Definition with_eventLoop (v : Z) (g : globals) : globals :=
  {| sockFd := sockFd g; eventLoop := v; sendTimer := sendTimer g;
     socketEventReg := socketEventReg g; exitCode := exitCode g;
     iter := iter g; errno := errno g |}.

Definition with_sendTimer (v : Z) (g : globals) : globals :=
  {| sockFd := sockFd g; eventLoop := eventLoop g; sendTimer := v;
     socketEventReg := socketEventReg g; exitCode := exitCode g;
     iter := iter g; errno := errno g |}.

Definition with_socketEventReg (v : Z) (g : globals) : globals :=
  {| sockFd := sockFd g; eventLoop := eventLoop g; sendTimer := sendTimer g;
     socketEventReg := v; exitCode := exitCode g;
     iter := iter g; errno := errno g |}.

Definition with_exitCode (v : ExitCode) (g : globals) : globals :=
  {| sockFd := sockFd g; eventLoop := eventLoop g; sendTimer := sendTimer g;
     socketEventReg := socketEventReg g; exitCode := v;
     iter := iter g; errno := errno g |}.

Definition with_iter (v : Z) (g : globals) : globals :=
  {| sockFd := sockFd g; eventLoop := eventLoop g; sendTimer := sendTimer g;
     socketEventReg := socketEventReg g; exitCode := exitCode g;
     iter := v; errno := errno g |}.

Definition with_errno (v : Z) (g : globals) : globals :=
  {| sockFd := sockFd g; eventLoop := eventLoop g; sendTimer := sendTimer g;
     socketEventReg := socketEventReg g; exitCode := exitCode g;
     iter := iter g; errno := v |}.

Definition set_sockFd (v : Z) : M unit := fun g => mkRes tt (with_sockFd v g) [].
Definition set_eventLoop (v : Z) : M unit := fun g => mkRes tt (with_eventLoop v g) [].
Definition set_sendTimer (v : Z) : M unit := fun g => mkRes tt (with_sendTimer v g) [].
Definition set_socketEventReg (v : Z) : M unit :=
  fun g => mkRes tt (with_socketEventReg v g) [].
Definition set_exitCode (v : ExitCode) : M unit := fun g => mkRes tt (with_exitCode v g) [].
Definition set_iter (v : Z) : M unit := fun g => mkRes tt (with_iter v g) [].
Definition set_errno (v : Z) : M unit := fun g => mkRes tt (with_errno v g) [].

(** An outside call: recorded, answered by the environment, which also
    decides what the call leaves in [errno]. *)
Definition extern (c : call) (a : answer) : M Z :=
  fun g => mkRes (ret_val a) (with_errno (ret_errno a) g) [Call c].

(** An outside call whose result the program ignores.  The [errno] it may
    leave is never read: every read of [errno] in the program follows a
    call that is answered. *)
Definition extern_ (c : call) : M unit := emit (Call c).

(** ** Handlers *)

(** [TerminationHandler(signalNumber)], the SIGTERM handler. *)
Definition TerminationHandler (signalNumber : Z) : M unit :=
  set_exitCode ExitCode_TermHandler_SigTerm.

Definition SIGTERM : Z := 15.

(** A point of the program at which the environment may deliver SIGTERM. *)
Definition maybe_SIGTERM (delivered : bool) : M unit :=
  if delivered then TerminationHandler SIGTERM else ret tt.

(** [SendMessageToRTApp()]; [a] answers [send]. *)
Definition SendMessageToRTApp (a : answer) : M unit :=
  i <- get iter ;;
  let txMessage := txMessage_of i in
  set_iter (next_iter i) ;;
  Log_Debug "Sending: %s\n" [ArgStr txMessage] ;;
  fd <- get sockFd ;;
  bytesSent <- extern (send fd txMessage (Z.of_nat (String.length txMessage))) a ;;
  if bytesSent =? -1 then
    e <- get errno ;;
    Log_Debug "ERROR: Unable to send message: %d (%s)\n" [ArgInt e; ArgStrerror e] ;;
    set_exitCode ExitCode_SendMsg_Send
  else ret tt.

(** [SendTimerEventHandler(timer)]; [c] answers
    [ConsumeEventLoopTimerEvent], [a] answers [send]. *)
Definition SendTimerEventHandler (timer : Z) (c a : answer) : M unit :=
  r <- extern (ConsumeEventLoopTimerEvent timer) c ;;
  if negb (r =? 0) then set_exitCode ExitCode_TimerHandler_Consume
  else SendMessageToRTApp a.

(** The loop [for (i = 0; i < bytesReceived; ++i) Log_Debug("%c", ...)]
    over the first [n] bytes of the buffer. *)
Fixpoint log_received (rxBuf : string) (n : nat) : M unit :=
  match n with
  | O => ret tt
  | S n' =>
      let c := head_char rxBuf in
      Log_Debug "%c" [ArgChar (if isprint c then c else "."%char)] ;;
      log_received (tail_chars rxBuf) n'
  end.

(** [SocketEventHandler(el, fd, events, context)]; [a] answers [recv] and
    [rxBuf] is the local buffer as [recv] leaves it. *)
Definition SocketEventHandler (fd : Z) (a : answer) (rxBuf : string) : M unit :=
  bytesReceived <- extern (recv fd RECV_BUFF_SIZE) a ;;
  Log_Debug "SocketEventHandler\n" [] ;;
  if bytesReceived =? -1 then
    e <- get errno ;;
    Log_Debug "ERROR: Unable to receive message: %d (%s)\n" [ArgInt e; ArgStrerror e] ;;
    set_exitCode ExitCode_SocketHandler_Recv
  else
    Log_Debug "Received %d bytes: " [ArgInt bytesReceived] ;;
    log_received rxBuf (Z.to_nat bytesReceived) ;;
    Log_Debug "\n" [] ;;
    if MsgParseIsReboot (Some rxBuf) bytesReceived then
      Log_Debug "Simulated reboot cmd received\n" [] ;;
      set_exitCode ExitCode_Main_EventLoopSimReboot
    else ret tt.

(** ** Initialisation and shutdown *)

(** [static const char rtAppComponentId[]] *)
Definition rtAppComponentId : string := "005180bc-402f-4cb3-a662-72937dbcde47".

(** The environment's answers to the five calls of [InitHandlers]. *)
Record init_env : Type := mkInitEnv {
  ie_EventLoop_Create : answer;
  ie_CreateTimer : answer;
  ie_Connect : answer;
  ie_setsockopt : answer;
  ie_RegisterIo : answer
}.

(** [InitHandlers()] *)
Definition InitHandlers (e : init_env) : M ExitCode :=
  el <- extern EventLoop_Create (ie_EventLoop_Create e) ;;
  set_eventLoop el ;;
  if el =? NULL then
    Log_Debug "Could not create event loop.\n" [] ;;
    ret ExitCode_Init_EventLoop
  else
  t <- extern (CreateEventLoopPeriodicTimer el 1 0) (ie_CreateTimer e) ;;
  set_sendTimer t ;;
  if t =? NULL then ret ExitCode_Init_SendTimer
  else
  fd <- extern (Application_Connect rtAppComponentId) (ie_Connect e) ;;
  set_sockFd fd ;;
  if fd =? -1 then
    en <- get errno ;;
    Log_Debug "ERROR: Unable to create socket: %d (%s)\n" [ArgInt en; ArgStrerror en] ;;
    ret ExitCode_Init_Connection
  else
  result <- extern (setsockopt_SO_RCVTIMEO fd 5 0) (ie_setsockopt e) ;;
  if result =? -1 then
    en <- get errno ;;
    Log_Debug "ERROR: Unable to set socket timeout: %d (%s)\n" [ArgInt en; ArgStrerror en] ;;
    ret ExitCode_Init_SetSockOpt
  else
  reg <- extern (EventLoop_RegisterIo el fd) (ie_RegisterIo e) ;;
  set_socketEventReg reg ;;
  if reg =? NULL then
    en <- get errno ;;
    Log_Debug "ERROR: Unable to register socket event: %d (%s)\n" [ArgInt en; ArgStrerror en] ;;
    ret ExitCode_Init_RegisterIo
  else ret ExitCode_Success.

(** [CloseFdAndPrintError(fd, fdName)]; [a] answers [close]. *)
Definition CloseFdAndPrintError (fd : Z) (fdName : string) (a : answer) : M unit :=
  if 0 <=? fd then
    result <- extern (close fd) a ;;
    if negb (result =? 0) then
      en <- get errno ;;
      Log_Debug "ERROR: Could not close fd %s: %s (%d).\n"
                [ArgStr fdName; ArgStrerror en; ArgInt en]
    else ret tt
  else ret tt.

(** [CloseHandlers()] *)
Definition CloseHandlers (a : answer) : M unit :=
  t <- get sendTimer ;;
  extern_ (DisposeEventLoopTimer t) ;;
  el <- get eventLoop ;;
  reg <- get socketEventReg ;;
  extern_ (EventLoop_UnregisterIo el reg) ;;
  extern_ (EventLoop_Close el) ;;
  Log_Debug "Closing file descriptors.\n" [] ;;
  fd <- get sockFd ;;
  CloseFdAndPrintError fd "Socket" a.

(** ** The dispatch loop *)

(** What happens while [EventLoop_Run] has control: a callback of the
    program is invoked, or SIGTERM interrupts. *)
Inductive action : Type :=
| Timer_fires (consume sent : answer)
| Socket_readable (rcv : answer) (rxBuf : string)
| Sigterm.

(** One trip round [while (exitCode == ExitCode_Success)]: whether
    SIGTERM arrives before the test, what happens inside
    [EventLoop_Run], and what the call returns. *)
Record dispatch : Type := mkDispatch {
  d_sigterm : bool;
  d_actions : list action;
  d_result : EventLoop_Run_Result;
  d_errno : Z
}.

Definition run_action (a : action) : M unit :=
  match a with
  | Timer_fires c s => t <- get sendTimer ;; SendTimerEventHandler t c s
  | Socket_readable r buf => fd <- get sockFd ;; SocketEventHandler fd r buf
  | Sigterm => TerminationHandler SIGTERM
  end.

Fixpoint run_actions (l : list action) : M unit :=
  match l with
  | [] => ret tt
  | a :: l' => run_action a ;; run_actions l'
  end.

(** [EventLoop_Run(eventLoop, -1, true)] *)
Definition EventLoop_Run_call (d : dispatch) : M EventLoop_Run_Result :=
  el <- get eventLoop ;;
  extern_ (EventLoop_Run el (-1) true) ;;
  run_actions (d_actions d) ;;
  set_errno (d_errno d) ;;
  ret (d_result d).

(** The body of the [while] loop of [RunLoop]. *)
Definition loop_body (d : dispatch) : M unit :=
  result <- EventLoop_Run_call d ;;
  en <- get errno ;;
  if is_Run_Failed result && negb (en =? EINTR) then
    set_exitCode ExitCode_Main_EventLoopFail
  else ret tt.

(** The [while] loop of [RunLoop] against a finite script.  When the
    script is used up and [exitCode] is still [ExitCode_Success], the
    program stays blocked in [EventLoop_Run] (the timeout is -1): there is
    no result. *)
Fixpoint dispatch_loop (ds : list dispatch) (g : globals) : option (res unit) :=
  match ds with
  | [] =>
      if ExitCode_eqb (exitCode g) ExitCode_Success then None
      else Some (ret tt g)
  | d :: ds' =>
      let r0 := maybe_SIGTERM (d_sigterm d) g in
      if ExitCode_eqb (exitCode (st r0)) ExitCode_Success then
        let r1 := loop_body d (st r0) in
        match dispatch_loop ds' (st r1) with
        | None => None
        | Some r2 => Some (mkRes tt (st r2) (tr r0 ++ tr r1 ++ tr r2))
        end
      else Some r0
  end.

(** ** One run and the restart loop *)

(** The environment of one call of [RunLoop]. *)
Record cycle_env : Type := mkCycle {
  c_sig_init : bool;     (* SIGTERM while InitHandlers runs *)
  c_init : init_env;
  c_loop : list dispatch;
  c_close : answer;      (* close(sockFd) *)
  c_sig_close : bool;    (* SIGTERM while CloseHandlers runs *)
  c_sleep : answer;      (* nanosleep *)
  c_sig_sleep : bool;    (* SIGTERM during the simulated reboot *)
  c_sig_return : bool    (* SIGTERM after RunLoop has read its result *)
}.

(** [RunLoop] up to the [while]. *)
Definition RunLoop_enter (c : cycle_env) : M unit :=
  Log_Debug "Running main loop.\n" [] ;;
  maybe_SIGTERM (c_sig_init c) ;;
  code <- InitHandlers (c_init c) ;;
  set_exitCode code.

(** [RunLoop] after the [while]. *)
Definition RunLoop_leave (c : cycle_env) : M ExitCode :=
  CloseHandlers (c_close c) ;;
  maybe_SIGTERM (c_sig_close c) ;;
  code <- get exitCode ;;
  (if ExitCode_eqb code ExitCode_Main_EventLoopSimReboot then
     Log_Debug "Simulating reboot...\n" [] ;;
     r <- extern (nanosleep 10 0) (c_sleep c) ;;
     (if r =? -1 then Log_Debug "WARNING: wait interrupted\n" [] else ret tt) ;;
     Log_Debug "Re-initialising\n" []
   else ret tt) ;;
  maybe_SIGTERM (c_sig_sleep c) ;;
  get exitCode.

(** [RunLoop()] *)
Definition RunLoop (c : cycle_env) (g : globals) : option (res ExitCode) :=
  let r0 := RunLoop_enter c g in
  match dispatch_loop (c_loop c) (st r0) with
  | None => None
  | Some r1 =>
      let r2 := RunLoop_leave c (st r1) in
      Some (mkRes (val r2) (st r2) (tr r0 ++ tr r1 ++ tr r2))
  end.

(** [InitSigterm()] *)
Definition InitSigterm : M unit := extern_ sigaction_SIGTERM.

(** [while ((code = RunLoop()) == ExitCode_Main_EventLoopSimReboot);]
    followed by the end of [main]; one [cycle_env] per call of [RunLoop].
    The value is the exit status of the process. *)
Fixpoint main_loop (w : list cycle_env) (g : globals) : option (res Z) :=
  match w with
  | [] => None
  | c :: w' =>
      match RunLoop c g with
      | None => None
      | Some r =>
          let r' := maybe_SIGTERM (c_sig_return c) (st r) in
          if ExitCode_eqb (val r) ExitCode_Main_EventLoopSimReboot then
            match main_loop w' (st r') with
            | None => None
            | Some r'' => Some (mkRes (val r'') (st r'') (tr r ++ tr r' ++ tr r''))
            end
          else
            let r'' := (Log_Debug "Application exiting.\n" [] ;;
                        code <- get exitCode ;;
                        ret (ExitCode_value code)) (st r') in
            Some (mkRes (val r'') (st r'') (tr r ++ tr r' ++ tr r''))
      end
  end.

(** [main()], started with the variables as initialised. *)
Definition main (w : list cycle_env) : option (res Z) :=
  let r0 := (Log_Debug "High-level intercore comms application\n" [] ;;
             Log_Debug "Sends data to, and receives data from a real-time capable application.\n" [] ;;
             InitSigterm) initial_globals in
  match main_loop w (st r0) with
  | None => None
  | Some r => Some (mkRes (val r) (st r) (tr r0 ++ tr r))
  end.

(** ** Vocabulary of the statements *)

(** The two-digit zero-padded decimal representation of [n], written
    from its definition: the tens digit, then the units digit. *)
Definition digit_char (d : Z) : ascii := ascii_of_nat (48 + Z.to_nat d).

Definition two_digits (n : Z) : string :=
  String (digit_char (n / 10)) (String (digit_char (n mod 10)) EmptyString).

Definition message_is_two_digit (k : nat) : bool :=
  String.eqb (txMessage_of (Z.of_nat k))
             ("hl-app-to-rt-app-adding" ++ two_digits (Z.of_nat k))%string.

(** A string without NUL characters. *)
Fixpoint no_NUL (s : string) : bool :=
  match s with
  | EmptyString => true
  | String c t => negb (Ascii.eqb c NUL) && no_NUL t
  end.

(** Consecutive invocations of the sender, one answer of [send] each. *)
Fixpoint sends (l : list answer) : M unit :=
  match l with
  | [] => ret tt
  | a :: l' => SendMessageToRTApp a ;; sends l'
  end.

(** What the loop over the received bytes logs. *)
Fixpoint received_log (rxBuf : string) (n : nat) : trace :=
  match n with
  | O => []
  | S n' =>
      Log "%c" [ArgChar (if isprint (head_char rxBuf) then head_char rxBuf
                         else "."%char)]
        :: received_log (tail_chars rxBuf) n'
  end.

(** The four variables that hold resources. *)
Definition handles (g : globals) : Z * Z * Z * Z :=
  (sockFd g, eventLoop g, sendTimer g, socketEventReg g).

(** Selecting the calls of a trace. *)
Definition event_in (p : call -> bool) (e : event) : bool :=
  match e with
  | Log _ _ => false
  | Call c => p c
  end.

Definition calls (p : call -> bool) (t : trace) : trace := filter (event_in p) t.

(** Every call of the trace satisfies [p]. *)
Definition only (p : call -> bool) (t : trace) : Prop :=
  Forall (fun e => match e with Log _ _ => True | Call c => p c = true end) t.

(** The calls of each phase of a run. *)
Definition init_call (c : call) : bool :=
  match c with
  | EventLoop_Create | CreateEventLoopPeriodicTimer _ _ _
  | Application_Connect _ | setsockopt_SO_RCVTIMEO _ _ _
  | EventLoop_RegisterIo _ _ => true
  | _ => false
  end.

Definition loop_call (c : call) : bool :=
  match c with
  | EventLoop_Run _ _ _ | ConsumeEventLoopTimerEvent _
  | send _ _ _ | recv _ _ => true
  | _ => false
  end.

Definition shutdown_call (c : call) : bool :=
  match c with
  | DisposeEventLoopTimer _ | EventLoop_UnregisterIo _ _
  | EventLoop_Close _ | close _ => true
  | _ => false
  end.

Definition nanosleep_call (c : call) : bool :=
  match c with nanosleep _ _ => true | _ => false end.

Definition send_call (c : call) : bool :=
  match c with send _ _ _ => true | _ => false end.

Definition create_call (c : call) : bool :=
  match c with EventLoop_Create => true | _ => false end.

Definition loop_close_call (c : call) : bool :=
  match c with EventLoop_Close _ => true | _ => false end.

Definition registration_call (c : call) : bool :=
  match c with
  | EventLoop_RegisterIo _ _ | EventLoop_UnregisterIo _ _ => true
  | _ => false
  end.

(** The shutdown calls that [CloseHandlers] makes in state [g]. *)
Definition shutdown_calls_of (g : globals) : trace :=
  [Call (DisposeEventLoopTimer (sendTimer g));
   Call (EventLoop_UnregisterIo (eventLoop g) (socketEventReg g));
   Call (EventLoop_Close (eventLoop g))]
  ++ (if 0 <=? sockFd g then [Call (close (sockFd g))] else []).

(** Whether SIGTERM arrives before the next test of the loop. *)
Definition next_sigterm (ds : list dispatch) : bool :=
  match ds with
  | [] => false
  | d :: _ => d_sigterm d
  end.


(** A result preceded by an earlier stretch of trace. *)
Definition after {A : Type} (t : trace) (o : option (res A)) : option (res A) :=
  match o with
  | None => None
  | Some r => Some (mkRes (val r) (st r) (t ++ tr r))
  end.

(** The texts handed to [send], in order. *)
Definition sent_payload (e : event) : list string :=
  match e with
  | Call (send _ buf _) => [buf]
  | _ => []
  end.

Definition sent_payloads (t : trace) : list string := flat_map sent_payload t.

(** The texts for [n] consecutive counter values from [k] on, the counter
    going round from 99 to 0. *)
Definition numbered (k : Z) (n : nat) : list string :=
  map (fun i => txMessage_of ((k + Z.of_nat i) mod 100)) (seq 0 n).

(** From [g] to [g'] with trace [t], the texts sent continue the count of
    [g] and the counter of [g'] has advanced by their number. *)
Definition numbering (g : globals) (t : trace) (g' : globals) : Prop :=
  0 <= iter g < 100 ->
  sent_payloads t = numbered (iter g) (List.length (sent_payloads t))
  /\ iter g' = (iter g + Z.of_nat (List.length (sent_payloads t))) mod 100.

(** The characters logged with the format [%c], in order. *)
Definition logged_char (e : event) : list ascii :=
  match e with
  | Log _ [ArgChar c] => [c]
  | _ => []
  end.

Definition logged_chars (t : trace) : list ascii := flat_map logged_char t.

(** How a received byte is shown in the log. *)
Definition shown (c : ascii) : ascii := if isprint c then c else "."%char.

(** The five calls of a complete initialisation, with the arguments the
    answers of the environment give them. *)
Definition init_calls_of (e : init_env) : trace :=
  [Call EventLoop_Create;
   Call (CreateEventLoopPeriodicTimer (ret_val (ie_EventLoop_Create e)) 1 0);
   Call (Application_Connect rtAppComponentId);
   Call (setsockopt_SO_RCVTIMEO (ret_val (ie_Connect e)) 5 0);
   Call (EventLoop_RegisterIo (ret_val (ie_EventLoop_Create e)) (ret_val (ie_Connect e)))].

(** A call made inside the dispatcher is made on the handles [h]. *)
Definition on_handles (h : Z * Z * Z * Z) (e : event) : Prop :=
  match e with
  | Call (EventLoop_Run el _ _) => el = snd (fst (fst h))
  | Call (ConsumeEventLoopTimerEvent t) => t = snd (fst h)
  | Call (send fd _ _) => fd = fst (fst (fst h))
  | Call (recv fd _) => fd = fst (fst (fst h))
  | _ => True
  end.

(** Different counter values in 0..99 give different texts. *)
Definition messages_distinct : bool :=
  forallb (fun i =>
             forallb (fun j =>
                        implb (String.eqb (txMessage_of (Z.of_nat i))
                                          (txMessage_of (Z.of_nat j)))
                              (Nat.eqb i j))
                     (seq 0 100))
          (seq 0 100).

(** ** Sample environments *)

Definition ok (v : Z) : answer := mkAnswer v 0.

Definition failed (e : Z) : answer := mkAnswer (-1) e.

(** Every step of initialisation succeeds; the handles are numbered from
    [base]. *)
Definition init_ok (base : Z) : init_env :=
  mkInitEnv (ok (base + 100)) (ok (base + 200)) (ok (base + 3)) (ok 0)
            (ok (base + 300)).

(** The loop and the timer are created, then the connection fails. *)
Definition init_no_connection (base : Z) : init_env :=
  mkInitEnv (ok (base + 100)) (ok (base + 200)) (failed 111) (ok 0) (ok 0).

(** A dispatch that runs [acts] and reports success. *)
Definition dispatched (acts : list action) : dispatch :=
  mkDispatch false acts EventLoop_Run_Finished 0.

(** A wait that a signal other than SIGTERM interrupts. *)
Definition interrupted : dispatch :=
  mkDispatch false [] EventLoop_Run_Failed EINTR.

(** A cycle without SIGTERM outside the dispatcher. *)
Definition cycle (i : init_env) (l : list dispatch) : cycle_env :=
  mkCycle false i l (ok 0) false (ok 0) false false.

(** The first read fails. *)
Definition cycle_recv_failure : cycle_env :=
  cycle (init_ok 0) [dispatched [Socket_readable (failed 11) ""]].

(** SIGTERM interrupts the first wait. *)
Definition cycle_sigterm : cycle_env :=
  cycle (init_ok 0) [mkDispatch false [Sigterm] EventLoop_Run_Failed EINTR].

(** One message out, then the sentinel in. *)
Definition cycle_reboot : cycle_env :=
  cycle (init_ok 0)
        [dispatched [Timer_fires (ok 0) (ok 25)];
         dispatched [Socket_readable (ok 8) "reboot!!"]].

(** One message out, the sentinel in, restart; one message out, SIGTERM. *)
Definition world_reboot_then_sigterm : list cycle_env :=
  [cycle_reboot;
   cycle (init_ok 1)
         [dispatched [Timer_fires (ok 0) (ok 25)];
          dispatched [Sigterm]]].

(** One message out, the sentinel in, restart; the connection then fails. *)
Definition world_reboot_then_no_connection : list cycle_env :=
  [cycle_reboot; cycle (init_no_connection 1) []].

(** The event loop cannot be created. *)
Definition init_no_loop : init_env :=
  mkInitEnv (mkAnswer NULL 12) (ok 0) (ok 0) (ok 0) (ok 0).

(** The sentinel arrives, and SIGTERM during the pause that follows. *)
Definition cycle_reboot_sigterm_in_pause : cycle_env :=
  mkCycle false (init_ok 0)
          [dispatched [Socket_readable (ok 8) "reboot!!"]]
          (ok 0) false (failed EINTR) true false.

(** SIGTERM arrives while InitHandlers runs; nothing happens afterwards. *)
Definition cycle_sigterm_during_init : cycle_env :=
  mkCycle true (init_ok 0) [] (ok 0) false (ok 0) false false.

(** * Properties *)

(** ** The classifier *)
Lemma char_value_inj (c1 c2 : ascii) : char_value c1 = char_value c2 -> c1 = c2.
Proof.
  unfold char_value. intros H. apply Nat2Z.inj in H.
  rewrite <- (ascii_nat_embedding c1), <- (ascii_nat_embedding c2). now rewrite H.
Qed.

Lemma strncmp_literal (n : nat) :
  forall buf lit,
    (n <= String.length lit)%nat -> no_NUL lit = true ->
    (strncmp buf lit n = 0 <->
     (n <= String.length buf)%nat /\ substring 0 n buf = substring 0 n lit).
Proof.
  induction n as [|n IH]; intros buf lit Hlen Hnul.
  - simpl. split; [intros _; split; [lia|]|reflexivity].
    destruct buf, lit; reflexivity.
  - destruct lit as [|c2 lit]; [simpl in Hlen; lia|].
    simpl in Hlen, Hnul. apply andb_true_iff in Hnul as [Hc2 Hnul].
    apply negb_true_iff in Hc2.
    destruct buf as [|c1 buf]; cbn [strncmp head_char tail_chars].
    + rewrite Ascii.eqb_sym, Hc2. cbn [negb].
      split.
      * intros H. exfalso. apply (proj1 (Ascii.eqb_neq c2 NUL)) in Hc2.
        apply Hc2. apply char_value_inj. lia.
      * intros [H _]. simpl in H. lia.
    + destruct (Ascii.eqb_spec c1 c2) as [->|Hne]; cbn [negb].
      * rewrite Hc2. rewrite (IH buf lit) by (auto; lia).
        cbn [String.length substring].
        split; intros [H1 H2]; split; try lia; congruence.
      * split.
        -- intros H. exfalso. apply Hne. apply char_value_inj. lia.
        -- intros [_ H]. cbn [substring] in H. congruence.
Qed.

Lemma strncmp_past_literal (lit : string) :
  forall buf k,
    no_NUL lit = true ->
    (strncmp buf lit (String.length lit + S k) = 0 <->
     (String.length lit <= String.length buf)%nat /\
     substring 0 (String.length lit) buf = lit /\
     head_char (substring (String.length lit) 1 buf) = NUL).
Proof.
  induction lit as [|c2 lit IH]; intros buf k Hnul.
  - cbn [String.length Nat.add strncmp head_char].
    destruct buf as [|c1 buf]; cbn [head_char substring String.length].
    + simpl. split; [intros _; repeat split; lia | reflexivity].
    + destruct (Ascii.eqb_spec c1 NUL) as [->|Hne]; cbn [negb].
      * simpl. split; [intros _; repeat split; lia | reflexivity].
      * split.
        -- intros H. exfalso. apply Hne. apply char_value_inj.
           change (char_value NUL) with 0 in *. lia.
        -- intros (_ & _ & H). congruence.
  - simpl in Hnul. apply andb_true_iff in Hnul as [Hc2 Hnul].
    apply negb_true_iff in Hc2.
    cbn [String.length Nat.add strncmp].
    destruct buf as [|c1 buf]; cbn [head_char tail_chars].
    + rewrite Ascii.eqb_sym, Hc2. cbn [negb]. split.
      * intros H. exfalso. apply (proj1 (Ascii.eqb_neq c2 NUL)) in Hc2.
        apply Hc2. apply char_value_inj. change (char_value NUL) with 0 in *. lia.
      * intros (H & _). simpl in H. lia.
    + destruct (Ascii.eqb_spec c1 c2) as [->|Hne]; cbn [negb].
      * rewrite Hc2. rewrite (IH buf k Hnul). cbn [String.length substring].
        split; intros (H1 & H2 & H3); repeat split; try lia; congruence.
      * split.
        -- intros H. exfalso. apply Hne. apply char_value_inj. lia.
        -- intros (_ & H & _). cbn [substring] in H. congruence.
Qed.

Lemma MsgParseIsReboot_non_positive (rxBuf : option string) (len : Z) :
  len <= 0 -> MsgParseIsReboot rxBuf len = false.
Proof.
  intros H. unfold MsgParseIsReboot. destruct rxBuf; [|reflexivity].
  apply Z.leb_le in H. now rewrite H.
Qed.

Lemma MsgParseIsReboot_upto_8 (buf : string) (len : Z) :
  0 < len <= 8 ->
  (MsgParseIsReboot (Some buf) len = true <->
   (Z.to_nat len <= String.length buf)%nat /\
   substring 0 (Z.to_nat len) buf = substring 0 (Z.to_nat len) "reboot!!").
Proof.
  intros H. unfold MsgParseIsReboot.
  destruct (len <=? 0) eqn:E; [apply Z.leb_le in E; lia|].
  rewrite Z.eqb_eq. apply strncmp_literal; [simpl; lia | reflexivity].
Qed.

Lemma MsgParseIsReboot_beyond_8 (buf : string) (len : Z) :
  8 < len ->
  (MsgParseIsReboot (Some buf) len = true <->
   (8 <= String.length buf)%nat /\
   substring 0 8 buf = "reboot!!" /\
   head_char (substring 8 1 buf) = NUL).
Proof.
  intros H. unfold MsgParseIsReboot.
  destruct (len <=? 0) eqn:E; [apply Z.leb_le in E; lia|].
  rewrite Z.eqb_eq.
  replace (Z.to_nat len) with (String.length "reboot!!" + S (Z.to_nat len - 9))%nat
    by (simpl; lia).
  apply strncmp_past_literal. reflexivity.
Qed.

(** What the classifier accepts, for a length that stays within the
    buffer: the first [len] bytes of the sentinel when [len] is at most 8,
    and beyond that the sentinel followed by a NUL. *)
Lemma MsgParseIsReboot_true_iff (buf : string) (len : Z) :
  MsgParseIsReboot (Some buf) len = true <->
  0 < len
  /\ ((len <= 8 /\ (Z.to_nat len <= String.length buf)%nat
       /\ substring 0 (Z.to_nat len) buf = substring 0 (Z.to_nat len) "reboot!!")
      \/ (8 < len /\ (8 <= String.length buf)%nat
          /\ substring 0 8 buf = "reboot!!"
          /\ head_char (substring 8 1 buf) = NUL)).
Proof.
  destruct (Z_le_gt_dec len 0) as [H0|H0].
  - rewrite (MsgParseIsReboot_non_positive _ _ H0). split; [discriminate|].
    intros [H _]. lia.
  - destruct (Z_le_gt_dec len 8) as [H8|H8].
    + rewrite MsgParseIsReboot_upto_8 by lia. split.
      * intros [H1 H2]. split; [lia|]. left. split; [lia|]. split; assumption.
      * intros [_ [(_ & H1 & H2)|(H & _)]]; [split; assumption | lia].
    + rewrite MsgParseIsReboot_beyond_8 by lia. split.
      * intros (H1 & H2 & H3). split; [lia|]. right. split; [lia|].
        split; [assumption|]. split; assumption.
      * intros [_ [(H & _)|(_ & H1 & H2 & H3)]]; [lia|].
        split; [assumption|]. split; assumption.
Qed.

(** On exactly 8 received bytes the classifier is the comparison with the
    sentinel. *)
Lemma MsgParseIsReboot_8 (buf : string) :
  (8 <= String.length buf)%nat ->
  (MsgParseIsReboot (Some buf) 8 = true <-> substring 0 8 buf = "reboot!!").
Proof.
  intros H. rewrite MsgParseIsReboot_upto_8 by lia.
  change (Z.to_nat 8) with 8%nat. change (substring 0 8 "reboot!!") with "reboot!!".
  split; [intros [_ H1]; exact H1 | intros H1; split; [exact H|exact H1]].
Qed.

(** C1, at inputs the code can meet: the classifier accepts a payload of
    one byte, of seven bytes, and of nine bytes, none of which has length
    8; it compares only as many bytes as were received, and stops at a
    NUL. *)
Theorem classifier_accepts_other_lengths :
  MsgParseIsReboot (Some "r") 1 = true
  /\ MsgParseIsReboot (Some "reboot!") 7 = true
  /\ MsgParseIsReboot (Some (String.append "reboot!!" (String NUL EmptyString))) 9 = true.
Proof. repeat split. Qed.
(** ** Traces and exit codes *)

Lemma calls_app (p : call -> bool) (t1 t2 : trace) :
  calls p (t1 ++ t2) = calls p t1 ++ calls p t2.
Proof. apply filter_app. Qed.

Lemma only_app (p : call -> bool) (t1 t2 : trace) :
  only p t1 -> only p t2 -> only p (t1 ++ t2).
Proof. intros H1 H2. apply Forall_app. now split. Qed.

Lemma only_nil (p : call -> bool) : only p [].
Proof. constructor. Qed.

Lemma only_calls_nil (p q : call -> bool) (t : trace) :
  (forall c, p c = true -> q c = false) -> only p t -> calls q t = [].
Proof.
  intros Hpq Ht. induction Ht as [|e t He _ IH]; [reflexivity|].
  cbn [calls filter]. fold (calls q t). rewrite IH.
  destruct e as [fmt args|c]; cbn [event_in]; [reflexivity|].
  now rewrite (Hpq c He).
Qed.

Lemma ExitCode_eqb_eq (a b : ExitCode) : ExitCode_eqb a b = true <-> a = b.
Proof.
  split.
  - destruct a, b; cbv; intros H; try reflexivity; discriminate H.
  - intros ->. apply Z.eqb_refl.
Qed.

Lemma ExitCode_eqb_neq (a b : ExitCode) : ExitCode_eqb a b = false <-> a <> b.
Proof.
  rewrite <- ExitCode_eqb_eq. destruct (ExitCode_eqb a b); split; congruence.
Qed.

(** ** Equations of the program *)

(** Sequencing, in terms of the parts. *)
Lemma bind_eq {A B : Type} (m : M A) (k : A -> M B) (g : globals) :
  bind m k g =
  mkRes (val (k (val (m g)) (st (m g))))
        (st (k (val (m g)) (st (m g))))
        (tr (m g) ++ tr (k (val (m g)) (st (m g)))).
Proof.
  unfold bind. destruct (m g) as [a g1 t1]. cbn [val st tr].
  destruct (k a g1) as [b g2 t2]. reflexivity.
Qed.

Ltac unfold_ops :=
  unfold bind, ret, get, Log_Debug, extern_, extern, emit,
    set_sockFd, set_eventLoop, set_sendTimer, set_socketEventReg,
    set_exitCode, set_iter, set_errno;
  cbv beta iota.

Ltac simpl_res :=
  cbn [st tr val sockFd eventLoop sendTimer socketEventReg exitCode iter errno
       ret_val ret_errno app
       with_sockFd with_eventLoop with_sendTimer with_socketEventReg
       with_exitCode with_iter with_errno].

Ltac simpl_res_in H :=
  cbn [st tr val sockFd eventLoop sendTimer socketEventReg exitCode iter errno
       ret_val ret_errno app
       with_sockFd with_eventLoop with_sendTimer with_socketEventReg
       with_exitCode with_iter with_errno] in H.

Lemma handles_with_errno (v : Z) (g : globals) :
  handles (with_errno v g) = handles g.
Proof. reflexivity. Qed.

Lemma handles_with_exitCode (v : ExitCode) (g : globals) :
  handles (with_exitCode v g) = handles g.
Proof. reflexivity. Qed.

Lemma handles_with_iter (v : Z) (g : globals) :
  handles (with_iter v g) = handles g.
Proof. reflexivity. Qed.

Ltac split_ifs :=
  repeat match goal with
         | |- context [if ?b then _ else _] => destruct b eqn:?
         end.

Lemma log_received_eq (n : nat) :
  forall buf g, log_received buf n g = mkRes tt g (received_log buf n).
Proof.
  induction n as [|n IH]; intros buf g; [reflexivity|].
  cbn [log_received received_log]. unfold_ops. rewrite IH. reflexivity.
Qed.

Lemma SendMessageToRTApp_eq (a : answer) (g : globals) :
  SendMessageToRTApp a g =
  let g1 := with_errno (ret_errno a) (with_iter (next_iter (iter g)) g) in
  let msg := txMessage_of (iter g) in
  mkRes tt
        (if ret_val a =? -1 then with_exitCode ExitCode_SendMsg_Send g1 else g1)
        (Log "Sending: %s\n" [ArgStr msg]
           :: Call (send (sockFd g) msg (Z.of_nat (String.length msg)))
           :: (if ret_val a =? -1
               then [Log "ERROR: Unable to send message: %d (%s)\n"
                         [ArgInt (ret_errno a); ArgStrerror (ret_errno a)]]
               else [])).
Proof.
  unfold SendMessageToRTApp. unfold_ops. simpl_res.
  destruct (ret_val a =? -1); reflexivity.
Qed.

Lemma SendTimerEventHandler_eq (timer : Z) (c a : answer) (g : globals) :
  SendTimerEventHandler timer c a g =
  if negb (ret_val c =? 0) then
    mkRes tt (with_exitCode ExitCode_TimerHandler_Consume (with_errno (ret_errno c) g))
          [Call (ConsumeEventLoopTimerEvent timer)]
  else
    mkRes tt (st (SendMessageToRTApp a (with_errno (ret_errno c) g)))
          (Call (ConsumeEventLoopTimerEvent timer)
             :: tr (SendMessageToRTApp a (with_errno (ret_errno c) g))).
Proof.
  unfold SendTimerEventHandler. rewrite bind_eq.
  unfold extern. simpl_res.
  destruct (negb (ret_val c =? 0)).
  - reflexivity.
  - destruct (SendMessageToRTApp a (with_errno (ret_errno c) g)) as [[] s t].
    reflexivity.
Qed.

Lemma SocketEventHandler_eq (fd : Z) (a : answer) (rxBuf : string) (g : globals) :
  SocketEventHandler fd a rxBuf g =
  let g1 := with_errno (ret_errno a) g in
  if ret_val a =? -1 then
    mkRes tt (with_exitCode ExitCode_SocketHandler_Recv g1)
          [Call (recv fd RECV_BUFF_SIZE);
           Log "SocketEventHandler\n" [];
           Log "ERROR: Unable to receive message: %d (%s)\n"
               [ArgInt (ret_errno a); ArgStrerror (ret_errno a)]]
  else
    mkRes tt
          (if MsgParseIsReboot (Some rxBuf) (ret_val a)
           then with_exitCode ExitCode_Main_EventLoopSimReboot g1 else g1)
          ([Call (recv fd RECV_BUFF_SIZE);
            Log "SocketEventHandler\n" [];
            Log "Received %d bytes: " [ArgInt (ret_val a)]]
             ++ received_log rxBuf (Z.to_nat (ret_val a))
             ++ Log "\n" []
             :: (if MsgParseIsReboot (Some rxBuf) (ret_val a)
                 then [Log "Simulated reboot cmd received\n" []] else [])).
Proof.
  unfold SocketEventHandler. unfold_ops. simpl_res.
  destruct (ret_val a =? -1); [reflexivity|].
  rewrite log_received_eq.
  destruct (MsgParseIsReboot (Some rxBuf) (ret_val a)); reflexivity.
Qed.

Lemma maybe_SIGTERM_eq (b : bool) (g : globals) :
  maybe_SIGTERM b g =
  mkRes tt (if b then with_exitCode ExitCode_TermHandler_SigTerm g else g) [].
Proof. destruct b; reflexivity. Qed.

Lemma InitHandlers_eq (e : init_env) (g : globals) :
  InitHandlers e g =
  let el := ret_val (ie_EventLoop_Create e) in
  let t := ret_val (ie_CreateTimer e) in
  let fd := ret_val (ie_Connect e) in
  let reg := ret_val (ie_RegisterIo e) in
  let e3 := ret_errno (ie_Connect e) in
  let e4 := ret_errno (ie_setsockopt e) in
  let e5 := ret_errno (ie_RegisterIo e) in
  let g1 := with_eventLoop el (with_errno (ret_errno (ie_EventLoop_Create e)) g) in
  let g2 := with_sendTimer t (with_errno (ret_errno (ie_CreateTimer e)) g1) in
  let g3 := with_sockFd fd (with_errno e3 g2) in
  let g4 := with_errno e4 g3 in
  let g5 := with_socketEventReg reg (with_errno e5 g4) in
  if el =? NULL then
    mkRes ExitCode_Init_EventLoop g1
          [Call EventLoop_Create; Log "Could not create event loop.\n" []]
  else if t =? NULL then
    mkRes ExitCode_Init_SendTimer g2
          [Call EventLoop_Create; Call (CreateEventLoopPeriodicTimer el 1 0)]
  else if fd =? -1 then
    mkRes ExitCode_Init_Connection g3
          [Call EventLoop_Create; Call (CreateEventLoopPeriodicTimer el 1 0);
           Call (Application_Connect rtAppComponentId);
           Log "ERROR: Unable to create socket: %d (%s)\n" [ArgInt e3; ArgStrerror e3]]
  else if ret_val (ie_setsockopt e) =? -1 then
    mkRes ExitCode_Init_SetSockOpt g4
          [Call EventLoop_Create; Call (CreateEventLoopPeriodicTimer el 1 0);
           Call (Application_Connect rtAppComponentId);
           Call (setsockopt_SO_RCVTIMEO fd 5 0);
           Log "ERROR: Unable to set socket timeout: %d (%s)\n" [ArgInt e4; ArgStrerror e4]]
  else if reg =? NULL then
    mkRes ExitCode_Init_RegisterIo g5
          [Call EventLoop_Create; Call (CreateEventLoopPeriodicTimer el 1 0);
           Call (Application_Connect rtAppComponentId);
           Call (setsockopt_SO_RCVTIMEO fd 5 0);
           Call (EventLoop_RegisterIo el fd);
           Log "ERROR: Unable to register socket event: %d (%s)\n" [ArgInt e5; ArgStrerror e5]]
  else
    mkRes ExitCode_Success g5
          [Call EventLoop_Create; Call (CreateEventLoopPeriodicTimer el 1 0);
           Call (Application_Connect rtAppComponentId);
           Call (setsockopt_SO_RCVTIMEO fd 5 0);
           Call (EventLoop_RegisterIo el fd)].
Proof.
  unfold InitHandlers. unfold_ops. simpl_res.
  destruct (ret_val (ie_EventLoop_Create e) =? NULL); [reflexivity|].
  destruct (ret_val (ie_CreateTimer e) =? NULL); [reflexivity|].
  destruct (ret_val (ie_Connect e) =? -1); [reflexivity|].
  destruct (ret_val (ie_setsockopt e) =? -1); [reflexivity|].
  destruct (ret_val (ie_RegisterIo e) =? NULL); reflexivity.
Qed.

Lemma CloseHandlers_eq (a : answer) (g : globals) :
  CloseHandlers a g =
  mkRes tt
        (if 0 <=? sockFd g then with_errno (ret_errno a) g else g)
        ([Call (DisposeEventLoopTimer (sendTimer g));
          Call (EventLoop_UnregisterIo (eventLoop g) (socketEventReg g));
          Call (EventLoop_Close (eventLoop g));
          Log "Closing file descriptors.\n" []]
           ++ (if 0 <=? sockFd g then
                 Call (close (sockFd g))
                   :: (if negb (ret_val a =? 0)
                       then [Log "ERROR: Could not close fd %s: %s (%d).\n"
                                 [ArgStr "Socket"; ArgStrerror (ret_errno a);
                                  ArgInt (ret_errno a)]]
                       else [])
               else [])).
Proof.
  unfold CloseHandlers, CloseFdAndPrintError. unfold_ops. simpl_res.
  destruct (0 <=? sockFd g); [|reflexivity].
  unfold_ops. simpl_res.
  destruct (negb (ret_val a =? 0)); reflexivity.
Qed.

Lemma run_action_eq (a : action) (g : globals) :
  run_action a g =
  match a with
  | Timer_fires c s => SendTimerEventHandler (sendTimer g) c s g
  | Socket_readable r buf => SocketEventHandler (sockFd g) r buf g
  | Sigterm => TerminationHandler SIGTERM g
  end.
Proof.
  destruct a as [c s|r buf|]; cbn [run_action]; [| |reflexivity];
    rewrite bind_eq; unfold get; simpl_res.
  - destruct (SendTimerEventHandler (sendTimer g) c s g) as [[] g1 t1]. reflexivity.
  - destruct (SocketEventHandler (sockFd g) r buf g) as [[] g1 t1]. reflexivity.
Qed.

Lemma run_actions_cons (a : action) (l : list action) (g : globals) :
  run_actions (a :: l) g =
  mkRes tt (st (run_actions l (st (run_action a g))))
        (tr (run_action a g) ++ tr (run_actions l (st (run_action a g)))).
Proof.
  cbn [run_actions]. rewrite bind_eq.
  destruct (run_actions l (st (run_action a g))) as [[] g2 t2]. reflexivity.
Qed.

Lemma loop_body_eq (d : dispatch) (g : globals) :
  loop_body d g =
  let g1 := with_errno (d_errno d) (st (run_actions (d_actions d) g)) in
  mkRes tt
        (if is_Run_Failed (d_result d) && negb (d_errno d =? EINTR)
         then with_exitCode ExitCode_Main_EventLoopFail g1 else g1)
        (Call (EventLoop_Run (eventLoop g) (-1) true)
           :: tr (run_actions (d_actions d) g)).
Proof.
  unfold loop_body, EventLoop_Run_call. unfold_ops. simpl_res.
  destruct (run_actions (d_actions d) g) as [[] g1 t1]. simpl_res.
  destruct (is_Run_Failed (d_result d) && negb (d_errno d =? EINTR));
    cbv beta iota; simpl_res; rewrite ?app_nil_r; reflexivity.
Qed.

Lemma RunLoop_enter_eq (c : cycle_env) (g : globals) :
  RunLoop_enter c g =
  let r := InitHandlers (c_init c) (st (maybe_SIGTERM (c_sig_init c) g)) in
  mkRes tt (with_exitCode (val r) (st r)) (Log "Running main loop.\n" [] :: tr r).
Proof.
  unfold RunLoop_enter, maybe_SIGTERM, TerminationHandler.
  destruct (c_sig_init c); unfold_ops; simpl_res;
    match goal with
    | |- context [InitHandlers ?e ?g0] => destruct (InitHandlers e g0) as [code g1 t1]
    end; cbv beta iota; simpl_res; rewrite ?app_nil_r; reflexivity.
Qed.

Lemma RunLoop_leave_eq (c : cycle_env) (g : globals) :
  RunLoop_leave c g =
  let g1 := st (maybe_SIGTERM (c_sig_close c) (st (CloseHandlers (c_close c) g))) in
  if ExitCode_eqb (exitCode g1) ExitCode_Main_EventLoopSimReboot then
    let g2 := st (maybe_SIGTERM (c_sig_sleep c)
                                (with_errno (ret_errno (c_sleep c)) g1)) in
    mkRes (exitCode g2) g2
          (tr (CloseHandlers (c_close c) g)
             ++ [Log "Simulating reboot...\n" []; Call (nanosleep 10 0)]
             ++ (if ret_val (c_sleep c) =? -1
                 then [Log "WARNING: wait interrupted\n" []] else [])
             ++ [Log "Re-initialising\n" []])
  else
    let g2 := st (maybe_SIGTERM (c_sig_sleep c) g1) in
    mkRes (exitCode g2) g2 (tr (CloseHandlers (c_close c) g)).
Proof.
  unfold RunLoop_leave, maybe_SIGTERM, TerminationHandler.
  destruct (c_sig_close c), (c_sig_sleep c); unfold_ops;
    destruct (CloseHandlers (c_close c) g) as [[] g0 t0]; simpl_res;
    match goal with
    | |- context [ExitCode_eqb ?x ?y] => destruct (ExitCode_eqb x y)
    end; cbv beta iota; simpl_res; rewrite ?app_nil_r; try reflexivity;
    destruct (ret_val (c_sleep c) =? -1); cbv beta iota; simpl_res;
    rewrite ?app_nil_r; reflexivity.
Qed.

(** ** What the handlers leave alone *)

Lemma only_Log (p : call -> bool) (fmt : string) (args : list log_arg) (t : trace) :
  only p t -> only p (Log fmt args :: t).
Proof. intros H. constructor; [exact I | exact H]. Qed.

Lemma only_Call (p : call -> bool) (c : call) (t : trace) :
  p c = true -> only p t -> only p (Call c :: t).
Proof. intros Hc H. constructor; [exact Hc | exact H]. Qed.

Ltac only_tac :=
  repeat match goal with
         | |- only _ [] => apply only_nil
         | |- only _ (Log _ _ :: _) => apply only_Log
         | |- only _ (Call _ :: _) => apply only_Call; [reflexivity|]
         | |- only _ (_ ++ _) => apply only_app
         end.

Ltac run_action_tac :=
  rewrite run_action_eq;
  match goal with
  | |- context [match ?a with Timer_fires _ _ => _ | _ => _ end] =>
      destruct a as [c s|r buf|]
  end;
  rewrite ?SendTimerEventHandler_eq, ?SendMessageToRTApp_eq, ?SocketEventHandler_eq;
  unfold TerminationHandler, set_exitCode; cbv zeta;
  split_ifs; simpl_res.

Lemma received_log_only (p : call -> bool) (n : nat) :
  forall buf, only p (received_log buf n).
Proof.
  induction n as [|n IH]; intros buf; cbn [received_log]; only_tac. apply IH.
Qed.

(** An action leaves the resource variables alone. *)
Lemma run_action_handles (a : action) (g : globals) :
  handles (st (run_action a g)) = handles g.
Proof. run_action_tac; reflexivity. Qed.

(** Once set, [exitCode] is never put back to [ExitCode_Success] by an
    action. *)
Lemma run_action_stays_set (a : action) (g : globals) :
  exitCode g <> ExitCode_Success ->
  exitCode (st (run_action a g)) <> ExitCode_Success.
Proof. intros H. run_action_tac; try assumption; discriminate. Qed.

(** No action writes [ExitCode_Main_EventLoopFail]. *)
Lemma run_action_not_EventLoopFail (a : action) (g : globals) :
  exitCode g <> ExitCode_Main_EventLoopFail ->
  exitCode (st (run_action a g)) <> ExitCode_Main_EventLoopFail.
Proof. intros H. run_action_tac; try assumption; discriminate. Qed.

(** Inside the dispatcher only the calls of the loop are made. *)
Lemma run_action_only (a : action) (g : globals) :
  only loop_call (tr (run_action a g)).
Proof. run_action_tac; only_tac; apply received_log_only. Qed.

Lemma run_actions_handles (l : list action) :
  forall g, handles (st (run_actions l g)) = handles g.
Proof.
  induction l as [|a l IH]; intros g; [reflexivity|].
  rewrite run_actions_cons. cbn [st]. rewrite IH. apply run_action_handles.
Qed.

Lemma run_actions_stays_set (l : list action) :
  forall g, exitCode g <> ExitCode_Success ->
            exitCode (st (run_actions l g)) <> ExitCode_Success.
Proof.
  induction l as [|a l IH]; intros g H; [exact H|].
  rewrite run_actions_cons. cbn [st]. apply IH. now apply run_action_stays_set.
Qed.

Lemma run_actions_not_EventLoopFail (l : list action) :
  forall g, exitCode g <> ExitCode_Main_EventLoopFail ->
            exitCode (st (run_actions l g)) <> ExitCode_Main_EventLoopFail.
Proof.
  induction l as [|a l IH]; intros g H; [exact H|].
  rewrite run_actions_cons. cbn [st]. apply IH.
  now apply run_action_not_EventLoopFail.
Qed.

Lemma run_actions_only (l : list action) :
  forall g, only loop_call (tr (run_actions l g)).
Proof.
  induction l as [|a l IH]; intros g; [apply only_nil|].
  rewrite run_actions_cons. cbn [tr]. apply only_app; [apply run_action_only | apply IH].
Qed.

(** ** The loop body *)

Lemma loop_body_handles (d : dispatch) (g : globals) :
  handles (st (loop_body d g)) = handles g.
Proof.
  rewrite loop_body_eq. cbv zeta. simpl_res.
  rewrite <- (run_actions_handles (d_actions d) g).
  destruct (is_Run_Failed (d_result d) && negb (d_errno d =? EINTR)); reflexivity.
Qed.

Lemma loop_body_only (d : dispatch) (g : globals) :
  only loop_call (tr (loop_body d g)).
Proof.
  rewrite loop_body_eq. cbv zeta. simpl_res. only_tac. apply run_actions_only.
Qed.

Lemma loop_body_iter (d : dispatch) (g : globals) :
  iter (st (loop_body d g)) = iter (st (run_actions (d_actions d) g)).
Proof.
  rewrite loop_body_eq. cbv zeta. simpl_res.
  destruct (is_Run_Failed (d_result d) && negb (d_errno d =? EINTR)); reflexivity.
Qed.

Lemma loop_body_exitCode (d : dispatch) (g : globals) :
  exitCode (st (loop_body d g)) =
  if is_Run_Failed (d_result d) && negb (d_errno d =? EINTR)
  then ExitCode_Main_EventLoopFail
  else exitCode (st (run_actions (d_actions d) g)).
Proof.
  rewrite loop_body_eq. cbv zeta. simpl_res.
  destruct (is_Run_Failed (d_result d) && negb (d_errno d =? EINTR)); reflexivity.
Qed.

(** ** The dispatch loop *)

Lemma maybe_SIGTERM_tr (b : bool) (g : globals) : tr (maybe_SIGTERM b g) = [].
Proof. destruct b; reflexivity. Qed.

Lemma maybe_SIGTERM_handles (b : bool) (g : globals) :
  handles (st (maybe_SIGTERM b g)) = handles g.
Proof. destruct b; reflexivity. Qed.

Lemma maybe_SIGTERM_iter (b : bool) (g : globals) :
  iter (st (maybe_SIGTERM b g)) = iter g.
Proof. destruct b; reflexivity. Qed.

Lemma maybe_SIGTERM_stays_set (b : bool) (g : globals) :
  exitCode g <> ExitCode_Success ->
  exitCode (st (maybe_SIGTERM b g)) <> ExitCode_Success.
Proof. destruct b; cbn; [discriminate | trivial]. Qed.

(** With [exitCode] set, the loop is left at its test: nothing more is
    dispatched, whatever the script still holds. *)
Lemma dispatch_loop_stopped (ds : list dispatch) (g : globals) :
  exitCode g <> ExitCode_Success ->
  exists r, dispatch_loop ds g = Some r /\ tr r = [] /\
            handles (st r) = handles g /\ iter (st r) = iter g /\
            exitCode (st r) <> ExitCode_Success /\
            (exitCode (st r) = exitCode g \/
             exitCode (st r) = ExitCode_TermHandler_SigTerm).
Proof.
  intros H. destruct ds as [|d ds]; cbn [dispatch_loop].
  - apply ExitCode_eqb_neq in H. rewrite H. eexists. split; [reflexivity|].
    apply ExitCode_eqb_neq in H. cbn. auto 6.
  - pose proof (maybe_SIGTERM_stays_set (d_sigterm d) g H) as H1.
    apply ExitCode_eqb_neq in H1. rewrite H1. eexists. split; [reflexivity|].
    apply ExitCode_eqb_neq in H1.
    rewrite maybe_SIGTERM_tr, maybe_SIGTERM_handles, maybe_SIGTERM_iter.
    repeat split; trivial. destruct (d_sigterm d); cbn; auto.
Qed.

Lemma dispatch_loop_stopped_eq (ds : list dispatch) (g : globals) :
  exitCode g <> ExitCode_Success ->
  dispatch_loop ds g = Some (maybe_SIGTERM (next_sigterm ds) g).
Proof.
  intros H. destruct ds as [|d ds]; cbn [dispatch_loop next_sigterm].
  - apply ExitCode_eqb_neq in H. rewrite H. reflexivity.
  - pose proof (maybe_SIGTERM_stays_set (d_sigterm d) g H) as H1.
    apply ExitCode_eqb_neq in H1. rewrite H1. reflexivity.
Qed.

(** A round of the loop that is entered. *)
Lemma dispatch_loop_round (d : dispatch) (ds : list dispatch) (g : globals) :
  d_sigterm d = false -> exitCode g = ExitCode_Success ->
  dispatch_loop (d :: ds) g =
  after (tr (loop_body d g)) (dispatch_loop ds (st (loop_body d g))).
Proof.
  intros Hs Hg. cbn [dispatch_loop]. rewrite Hs. cbn [maybe_SIGTERM ret st tr].
  rewrite Hg. cbn [ExitCode_eqb ExitCode_value Z.eqb].
  destruct (dispatch_loop ds (st (loop_body d g))) as [r|]; cbn; [|reflexivity].
  destruct r as [[] s t]. reflexivity.
Qed.

(** What holds whenever the loop is left. *)
Lemma dispatch_loop_exit (ds : list dispatch) :
  forall g r, dispatch_loop ds g = Some r ->
              handles (st r) = handles g /\ only loop_call (tr r) /\
              exitCode (st r) <> ExitCode_Success.
Proof.
  induction ds as [|d ds IH]; intros g r H; cbn [dispatch_loop] in H.
  - destruct (ExitCode_eqb (exitCode g) ExitCode_Success) eqn:E; [discriminate|].
    injection H as <-. cbn. repeat split; [apply only_nil|].
    now apply ExitCode_eqb_neq.
  - destruct (ExitCode_eqb (exitCode (st (maybe_SIGTERM (d_sigterm d) g)))
                           ExitCode_Success) eqn:E.
    + destruct (dispatch_loop ds (st (loop_body d (st (maybe_SIGTERM (d_sigterm d) g)))))
        as [r2|] eqn:E2; [|discriminate].
      injection H as <-. cbn [st tr].
      destruct (IH _ _ E2) as (Hh & Ho & He).
      rewrite Hh, loop_body_handles, maybe_SIGTERM_handles, maybe_SIGTERM_tr.
      repeat split; trivial. cbn [app]. apply only_app; [apply loop_body_only | exact Ho].
    + injection H as <-. rewrite maybe_SIGTERM_handles, maybe_SIGTERM_tr.
      repeat split; [apply only_nil|]. now apply ExitCode_eqb_neq.
Qed.

(** ** The counter and the message text *)

Lemma next_iter_mod (n : Z) : 0 <= n < 100 -> next_iter n = (n + 1) mod 100.
Proof.
  intros H. unfold next_iter, int_wrap.
  rewrite (Z.mod_small (n + 1 + 2 ^ 31)) by lia.
  replace (n + 1 + 2 ^ 31 - 2 ^ 31) with (n + 1) by lia.
  apply Z.rem_mod_nonneg; lia.
Qed.

Lemma SendMessageToRTApp_iter (a : answer) (g : globals) :
  iter (st (SendMessageToRTApp a g)) = next_iter (iter g).
Proof.
  rewrite SendMessageToRTApp_eq. cbv zeta. simpl_res.
  destruct (ret_val a =? -1); reflexivity.
Qed.

Lemma SendMessageToRTApp_sends (a : answer) (g : globals) :
  calls send_call (tr (SendMessageToRTApp a g)) =
  [Call (send (sockFd g) (txMessage_of (iter g))
              (Z.of_nat (String.length (txMessage_of (iter g)))))].
Proof.
  rewrite SendMessageToRTApp_eq. cbv zeta. simpl_res.
  destruct (ret_val a =? -1); reflexivity.
Qed.

Lemma SendMessageToRTApp_exitCode (a : answer) (g : globals) :
  exitCode (st (SendMessageToRTApp a g)) =
  if ret_val a =? -1 then ExitCode_SendMsg_Send else exitCode g.
Proof.
  rewrite SendMessageToRTApp_eq. cbv zeta. simpl_res.
  destruct (ret_val a =? -1); reflexivity.
Qed.

Lemma sends_iter (l : list answer) :
  forall g, 0 <= iter g < 100 ->
            iter (st (sends l g)) = (iter g + Z.of_nat (List.length l)) mod 100.
Proof.
  induction l as [|a l IH]; intros g Hg.
  - cbn. rewrite Z.add_0_r, Z.mod_small; lia.
  - cbn [sends]. rewrite bind_eq. cbn [st].
    assert (H1 : iter (st (SendMessageToRTApp a g)) = (iter g + 1) mod 100)
      by (rewrite SendMessageToRTApp_iter; now apply next_iter_mod).
    rewrite IH by (rewrite H1; apply Z.mod_pos_bound; lia).
    rewrite H1. cbn [List.length]. rewrite Nat2Z.inj_succ.
    rewrite Zplus_mod_idemp_l. f_equal. lia.
Qed.

Lemma txMessage_of_two_digits (n : Z) :
  0 <= n <= 99 ->
  txMessage_of n = ("hl-app-to-rt-app-adding" ++ two_digits n)%string.
Proof.
  intros H.
  assert (A : forallb message_is_two_digit (seq 0 100) = true) by (vm_compute; reflexivity).
  rewrite forallb_forall in A.
  specialize (A (Z.to_nat n)).
  unfold message_is_two_digit in A. rewrite Z2Nat.id in A by lia.
  apply String.eqb_eq, A, in_seq. lia.
Qed.

Lemma txMessage_of_length (n : Z) :
  0 <= n <= 99 -> String.length (txMessage_of n) = 25%nat.
Proof. intros H. rewrite txMessage_of_two_digits by exact H. reflexivity. Qed.

(** A timer event whose send fails leaves [exitCode] set, at whatever
    place of a dispatch it occurs. *)
Lemma failed_send_sets_exitCode (c a : answer) (l : list action) :
  forall g, In (Timer_fires c a) l -> ret_val a = -1 ->
            exitCode (st (run_actions l g)) <> ExitCode_Success.
Proof.
  induction l as [|x l IH]; intros g Hin Ha; [destruct Hin|].
  rewrite run_actions_cons. cbn [st]. destruct Hin as [->|Hin].
  - apply run_actions_stays_set. rewrite run_action_eq, SendTimerEventHandler_eq.
    destruct (negb (ret_val c =? 0)); simpl_res; [discriminate|].
    rewrite SendMessageToRTApp_exitCode, Ha. discriminate.
  - now apply IH.
Qed.

(** The loop is left after a round that ends with [exitCode] set. *)
Lemma dispatch_loop_last_round (d : dispatch) (ds : list dispatch) (g : globals) :
  d_sigterm d = false -> exitCode g = ExitCode_Success ->
  exitCode (st (loop_body d g)) <> ExitCode_Success ->
  exists r, dispatch_loop (d :: ds) g = Some r /\ tr r = tr (loop_body d g) /\
            handles (st r) = handles g /\ iter (st r) = iter (st (loop_body d g)) /\
            exitCode (st r) <> ExitCode_Success /\
            (exitCode (st r) = exitCode (st (loop_body d g)) \/
             exitCode (st r) = ExitCode_TermHandler_SigTerm).
Proof.
  intros Hs Hg Hset. rewrite (dispatch_loop_round d ds g Hs Hg).
  destruct (dispatch_loop_stopped ds _ Hset) as (r & Hr & Ht & Hh & Hi & He & Hc).
  rewrite Hr. cbn [after]. eexists. split; [reflexivity|]. cbn [st tr val].
  rewrite Ht, app_nil_r, Hh, loop_body_handles. auto 6.
Qed.

(** C9: for every counter value n from 0 to 99 the text formatted for n is
    hl-app-to-rt-app-adding followed by the two-digit zero-padded decimal
    representation of n, this is the text handed to send, each send
    advances the counter by 1 modulo 100, and 100 sends bring it back to
    where it was, so to 0 when started at 0. *)
Theorem outbound_message_and_counter (n : Z) (a : answer) (g : globals) :
  0 <= n <= 99 -> iter g = n ->
  txMessage_of n = ("hl-app-to-rt-app-adding" ++ two_digits n)%string
  /\ calls send_call (tr (SendMessageToRTApp a g)) =
     [Call (send (sockFd g) ("hl-app-to-rt-app-adding" ++ two_digits n)%string 25)]
  /\ iter (st (SendMessageToRTApp a g)) = (n + 1) mod 100
  /\ (forall l, List.length l = 100%nat -> iter (st (sends l g)) = n)
  /\ (forall l, List.length l = 100%nat -> iter (st (sends l initial_globals)) = 0).
Proof.
  intros Hn Hg. split; [now apply txMessage_of_two_digits|]. split; [|split; [|split]].
  - rewrite SendMessageToRTApp_sends, Hg, txMessage_of_length by exact Hn.
    now rewrite txMessage_of_two_digits.
  - rewrite SendMessageToRTApp_iter, Hg. apply next_iter_mod. lia.
  - intros l Hl. rewrite sends_iter, Hl, Hg by lia.
    change (Z.of_nat 100) with (1 * 100). rewrite Z.mod_add, Z.mod_small; lia.
  - intros l Hl. rewrite sends_iter, Hl by (cbn; lia). reflexivity.
Qed.

Lemma outbound_message_and_counter_witness :
  0 <= 7 <= 99
  /\ iter (with_iter 7 initial_globals) = 7
  /\ txMessage_of 7 = "hl-app-to-rt-app-adding07"
  /\ calls send_call (tr (SendMessageToRTApp (ok 25) (with_iter 7 initial_globals))) =
     [Call (send (-1) "hl-app-to-rt-app-adding07" 25)]
  /\ iter (st (SendMessageToRTApp (ok 25) (with_iter 7 initial_globals))) = 8.
Proof.
  destruct (outbound_message_and_counter 7 (ok 25) (with_iter 7 initial_globals))
    as (H1 & H2 & H3 & _); [lia | reflexivity |].
  split; [lia|]. split; [reflexivity|].
  split; [exact H1|]. split; [exact H2 | exact H3].
Defined.

(** C8: an invocation of the sender hands the formatted message to send
    exactly once, on the channel descriptor, and leaves the counter
    advanced modulo 100; when send reports failure the exit code becomes
    ExitCode_SendMsg_Send, no second send is made, and the dispatch loop
    returns after the round in which this happened, whatever the rest of
    the script holds. *)
Theorem sender_contract (a : answer) (g : globals) :
  0 <= iter g < 100 ->
  calls send_call (tr (SendMessageToRTApp a g)) =
    [Call (send (sockFd g) (txMessage_of (iter g))
                (Z.of_nat (String.length (txMessage_of (iter g)))))]
  /\ iter (st (SendMessageToRTApp a g)) = (iter g + 1) mod 100
  /\ (ret_val a <> -1 -> exitCode (st (SendMessageToRTApp a g)) = exitCode g)
  /\ (ret_val a = -1 ->
      exitCode (st (SendMessageToRTApp a g)) = ExitCode_SendMsg_Send
      /\ forall c d ds g0,
           d_sigterm d = false -> exitCode g0 = ExitCode_Success ->
           In (Timer_fires c a) (d_actions d) ->
           exists r, dispatch_loop (d :: ds) g0 = Some r
                     /\ tr r = tr (loop_body d g0)
                     /\ exitCode (st r) <> ExitCode_Success).
Proof.
  intros Hi. split; [apply SendMessageToRTApp_sends|].
  split; [rewrite SendMessageToRTApp_iter; now apply next_iter_mod|].
  split.
  - intros Ha. rewrite SendMessageToRTApp_exitCode.
    apply Z.eqb_neq in Ha. now rewrite Ha.
  - intros Ha. split; [rewrite SendMessageToRTApp_exitCode, Ha; reflexivity|].
    intros c d ds g0 Hs Hg0 Hin.
    destruct (dispatch_loop_last_round d ds g0 Hs Hg0) as (r & Hr & Ht & _ & _ & He & _).
    + rewrite loop_body_exitCode.
      destruct (is_Run_Failed (d_result d) && negb (d_errno d =? EINTR));
        [discriminate|]. now apply (failed_send_sets_exitCode c a).
    + exists r. auto.
Qed.

Lemma sender_contract_witness :
  0 <= iter initial_globals < 100
  /\ ret_val (ok 25) <> -1
  /\ exitCode (st (SendMessageToRTApp (ok 25) initial_globals)) = ExitCode_Success
  /\ ret_val (failed 11) = -1
  /\ exitCode (st (SendMessageToRTApp (failed 11) initial_globals)) = ExitCode_SendMsg_Send
  /\ exists r,
      dispatch_loop [dispatched [Timer_fires (ok 0) (failed 11)];
                     dispatched [Timer_fires (ok 0) (ok 25)]] initial_globals = Some r
      /\ exitCode (st r) <> ExitCode_Success.
Proof.
  destruct (sender_contract (failed 11) initial_globals) as (_ & _ & _ & H);
    [cbn; lia|].
  destruct (H eq_refl) as (H1 & H2).
  split; [cbn; lia|].
  assert (Hok : ret_val (ok 25) <> -1) by discriminate.
  split; [exact Hok|].
  split; [exact (proj1 (proj2 (proj2 (sender_contract (ok 25) initial_globals
                                                      ltac:(cbn; lia)))) Hok)|].
  split; [reflexivity|]. split; [exact H1|].
  destruct (H2 (ok 0) (dispatched [Timer_fires (ok 0) (failed 11)])
               [dispatched [Timer_fires (ok 0) (ok 25)]] initial_globals
               eq_refl eq_refl (or_introl eq_refl)) as (r & Hr & _ & He).
  exists r. split; [exact Hr | exact He].
Defined.

(** ** Receiving *)

Lemma SocketEventHandler_exitCode (fd : Z) (a : answer) (rxBuf : string) (g : globals) :
  exitCode (st (SocketEventHandler fd a rxBuf g)) =
  if ret_val a =? -1 then ExitCode_SocketHandler_Recv
  else if MsgParseIsReboot (Some rxBuf) (ret_val a)
       then ExitCode_Main_EventLoopSimReboot else exitCode g.
Proof.
  rewrite SocketEventHandler_eq. cbv zeta.
  destruct (ret_val a =? -1); [reflexivity|]. simpl_res.
  destruct (MsgParseIsReboot (Some rxBuf) (ret_val a)); reflexivity.
Qed.

Lemma SocketEventHandler_iter (fd : Z) (a : answer) (rxBuf : string) (g : globals) :
  iter (st (SocketEventHandler fd a rxBuf g)) = iter g.
Proof.
  rewrite SocketEventHandler_eq. cbv zeta.
  destruct (ret_val a =? -1); [reflexivity|]. simpl_res.
  destruct (MsgParseIsReboot (Some rxBuf) (ret_val a)); reflexivity.
Qed.

Lemma run_actions_one (a : action) (g : globals) :
  st (run_actions [a] g) = st (run_action a g).
Proof. rewrite run_actions_cons. reflexivity. Qed.

(** C10: a read that succeeds with zero bytes is an event like any other:
    the handler logs the count 0 and no byte, the classifier rejects the
    empty payload, nothing but errno changes, so the exit code is what it
    was and a running dispatch loop goes on to its next round. *)
Theorem zero_byte_read_is_no_op (fd e : Z) (rxBuf : string) (g : globals) :
  tr (SocketEventHandler fd (mkAnswer 0 e) rxBuf g) =
    [Call (recv fd RECV_BUFF_SIZE);
     Log "SocketEventHandler\n" [];
     Log "Received %d bytes: " [ArgInt 0];
     Log "\n" []]
  /\ MsgParseIsReboot (Some rxBuf) 0 = false
  /\ st (SocketEventHandler fd (mkAnswer 0 e) rxBuf g) = with_errno e g
  /\ exitCode (st (SocketEventHandler fd (mkAnswer 0 e) rxBuf g)) = exitCode g
  /\ forall d ds,
       d_sigterm d = false -> exitCode g = ExitCode_Success ->
       d_actions d = [Socket_readable (mkAnswer 0 e) rxBuf] ->
       is_Run_Failed (d_result d) && negb (d_errno d =? EINTR) = false ->
       exitCode (st (loop_body d g)) = ExitCode_Success
       /\ dispatch_loop (d :: ds) g =
          after (tr (loop_body d g)) (dispatch_loop ds (st (loop_body d g))).
Proof.
  assert (E : SocketEventHandler fd (mkAnswer 0 e) rxBuf g =
              mkRes tt (with_errno e g)
                    [Call (recv fd RECV_BUFF_SIZE);
                     Log "SocketEventHandler\n" [];
                     Log "Received %d bytes: " [ArgInt 0];
                     Log "\n" []])
    by (rewrite SocketEventHandler_eq; reflexivity).
  rewrite E. do 4 (split; [reflexivity|]).
  intros d ds Hs Hg Ha Hr. split; [|now apply dispatch_loop_round].
  rewrite loop_body_exitCode, Hr, Ha, run_actions_one, run_action_eq.
  rewrite SocketEventHandler_exitCode. exact Hg.
Qed.

Lemma zero_byte_read_is_no_op_witness :
  exitCode initial_globals = ExitCode_Success
  /\ exitCode (st (loop_body (dispatched [Socket_readable (ok 0) "stale"])
                             initial_globals)) = ExitCode_Success
  /\ dispatch_loop [dispatched [Socket_readable (ok 0) "stale"];
                    dispatched [Sigterm]] initial_globals =
     after (tr (loop_body (dispatched [Socket_readable (ok 0) "stale"]) initial_globals))
           (dispatch_loop [dispatched [Sigterm]]
              (st (loop_body (dispatched [Socket_readable (ok 0) "stale"])
                             initial_globals))).
Proof.
  destruct (zero_byte_read_is_no_op (-1) 0 "stale" initial_globals)
    as (_ & _ & _ & _ & H).
  split; [reflexivity|].
  exact (H (dispatched [Socket_readable (ok 0) "stale"]) [dispatched [Sigterm]]
           eq_refl eq_refl eq_refl eq_refl).
Defined.

(** ** Interrupted and failed waits *)

(** C4: when EventLoop_Run reports failure with errno EINTR the loop body
    writes nothing to the exit code, which therefore is not
    ExitCode_Main_EventLoopFail, and unless a handler that ran during the
    wait has set it the loop goes on to the next call of EventLoop_Run;
    when it reports failure with any other errno the exit code becomes
    ExitCode_Main_EventLoopFail and the loop returns after this round. *)
Theorem interrupted_wait_continues (d : dispatch) (ds : list dispatch) (g : globals) :
  d_sigterm d = false -> exitCode g = ExitCode_Success ->
  d_result d = EventLoop_Run_Failed ->
  (d_errno d = EINTR ->
     exitCode (st (loop_body d g)) = exitCode (st (run_actions (d_actions d) g))
     /\ exitCode (st (loop_body d g)) <> ExitCode_Main_EventLoopFail
     /\ (exitCode (st (run_actions (d_actions d) g)) = ExitCode_Success ->
         forall d' ds', ds = d' :: ds' -> d_sigterm d' = false ->
           dispatch_loop (d :: ds) g =
           after (tr (loop_body d g) ++ tr (loop_body d' (st (loop_body d g))))
                 (dispatch_loop ds' (st (loop_body d' (st (loop_body d g)))))))
  /\ (d_errno d <> EINTR ->
      exitCode (st (loop_body d g)) = ExitCode_Main_EventLoopFail
      /\ exists r, dispatch_loop (d :: ds) g = Some r
                   /\ tr r = tr (loop_body d g)
                   /\ exitCode (st r) <> ExitCode_Success).
Proof.
  intros Hs Hg Hr. split.
  - intros He.
    assert (E : exitCode (st (loop_body d g)) =
                exitCode (st (run_actions (d_actions d) g))).
    { rewrite loop_body_exitCode, He, Z.eqb_refl, andb_false_r. reflexivity. }
    split; [exact E|]. split.
    + rewrite E. apply run_actions_not_EventLoopFail. rewrite Hg. discriminate.
    + intros Hok d' ds' -> Hs'.
      rewrite (dispatch_loop_round d _ g Hs Hg).
      rewrite (dispatch_loop_round d' ds' _ Hs') by (rewrite E; exact Hok).
      destruct (dispatch_loop ds' _) as [r|]; [|reflexivity].
      cbn [after st tr val]. now rewrite app_assoc.
  - intros He.
    assert (E : exitCode (st (loop_body d g)) = ExitCode_Main_EventLoopFail).
    { rewrite loop_body_exitCode, Hr. apply Z.eqb_neq in He. now rewrite He. }
    split; [exact E|].
    destruct (dispatch_loop_last_round d ds g Hs Hg) as (r & H1 & H2 & _ & _ & H3 & _).
    + rewrite E. discriminate.
    + exists r. auto.
Qed.

Lemma interrupted_wait_continues_witness :
  (d_errno (mkDispatch false [] EventLoop_Run_Failed 5) <> EINTR
   /\ exitCode (st (loop_body (mkDispatch false [] EventLoop_Run_Failed 5)
                              initial_globals)) = ExitCode_Main_EventLoopFail
   /\ exists r,
       dispatch_loop [mkDispatch false [] EventLoop_Run_Failed 5; interrupted]
                     initial_globals = Some r
       /\ exitCode (st r) <> ExitCode_Success)
  /\ d_sigterm interrupted = false
  /\ exitCode initial_globals = ExitCode_Success
  /\ d_result interrupted = EventLoop_Run_Failed
  /\ d_errno interrupted = EINTR
  /\ exitCode (st (loop_body interrupted initial_globals)) <> ExitCode_Main_EventLoopFail
  /\ dispatch_loop [interrupted; dispatched [Sigterm]] initial_globals =
     after (tr (loop_body interrupted initial_globals)
              ++ tr (loop_body (dispatched [Sigterm])
                               (st (loop_body interrupted initial_globals))))
           (dispatch_loop []
              (st (loop_body (dispatched [Sigterm])
                             (st (loop_body interrupted initial_globals))))).
Proof.
  split.
  { destruct (interrupted_wait_continues
                (mkDispatch false [] EventLoop_Run_Failed 5) [interrupted]
                initial_globals eq_refl eq_refl eq_refl) as (_ & H).
    assert (Hne : d_errno (mkDispatch false [] EventLoop_Run_Failed 5) <> EINTR)
      by discriminate.
    destruct (H Hne) as (H1 & r & H2 & _ & H3).
    split; [exact Hne|]. split; [exact H1|]. exists r. split; [exact H2 | exact H3]. }
  destruct (interrupted_wait_continues interrupted [dispatched [Sigterm]]
              initial_globals eq_refl eq_refl eq_refl) as (H & _).
  destruct (H eq_refl) as (_ & H1 & H2).
  repeat (split; [reflexivity|]). split; [exact H1|].
  exact (H2 eq_refl (dispatched [Sigterm]) [] eq_refl eq_refl).
Defined.

(** ** Initialisation and shutdown *)

Lemma InitHandlers_only (e : init_env) (g : globals) :
  only init_call (tr (InitHandlers e g)).
Proof. rewrite InitHandlers_eq. cbv zeta. split_ifs; simpl_res; only_tac. Qed.

Lemma InitHandlers_creates_once (e : init_env) (g : globals) :
  calls create_call (tr (InitHandlers e g)) = [Call EventLoop_Create].
Proof. rewrite InitHandlers_eq. cbv zeta. split_ifs; reflexivity. Qed.

Lemma InitHandlers_iter (e : init_env) (g : globals) :
  iter (st (InitHandlers e g)) = iter g.
Proof. rewrite InitHandlers_eq. cbv zeta. split_ifs; reflexivity. Qed.

Lemma RunLoop_enter_exitCode (c : cycle_env) (g : globals) :
  exitCode (st (RunLoop_enter c g)) =
  val (InitHandlers (c_init c) (st (maybe_SIGTERM (c_sig_init c) g))).
Proof. rewrite RunLoop_enter_eq. reflexivity. Qed.

Lemma RunLoop_enter_only (c : cycle_env) (g : globals) :
  only init_call (tr (RunLoop_enter c g)).
Proof.
  rewrite RunLoop_enter_eq. cbv zeta. simpl_res. only_tac. apply InitHandlers_only.
Qed.

Lemma RunLoop_enter_iter (c : cycle_env) (g : globals) :
  iter (st (RunLoop_enter c g)) = iter g.
Proof.
  rewrite RunLoop_enter_eq. cbv zeta. simpl_res.
  rewrite InitHandlers_iter. apply maybe_SIGTERM_iter.
Qed.

Lemma shutdown_calls_of_handles (g g' : globals) :
  handles g = handles g' -> shutdown_calls_of g = shutdown_calls_of g'.
Proof.
  unfold handles, shutdown_calls_of. intros H. injection H as -> -> -> ->.
  reflexivity.
Qed.

Lemma CloseHandlers_calls (a : answer) (g : globals) :
  calls shutdown_call (tr (CloseHandlers a g)) = shutdown_calls_of g.
Proof.
  rewrite CloseHandlers_eq. unfold shutdown_calls_of. simpl_res.
  destruct (0 <=? sockFd g); [|reflexivity].
  destruct (negb (ret_val a =? 0)); reflexivity.
Qed.

Lemma CloseHandlers_handles (a : answer) (g : globals) :
  handles (st (CloseHandlers a g)) = handles g.
Proof. rewrite CloseHandlers_eq. simpl_res. destruct (0 <=? sockFd g); reflexivity. Qed.

Lemma CloseHandlers_exitCode (a : answer) (g : globals) :
  exitCode (st (CloseHandlers a g)) = exitCode g.
Proof. rewrite CloseHandlers_eq. simpl_res. destruct (0 <=? sockFd g); reflexivity. Qed.

Lemma CloseHandlers_iter (a : answer) (g : globals) :
  iter (st (CloseHandlers a g)) = iter g.
Proof. rewrite CloseHandlers_eq. simpl_res. destruct (0 <=? sockFd g); reflexivity. Qed.

Lemma CloseHandlers_other_calls (p : call -> bool) (a : answer) (g : globals) :
  (forall c, shutdown_call c = true -> p c = false) ->
  calls p (tr (CloseHandlers a g)) = [].
Proof.
  intros H. apply (only_calls_nil shutdown_call); [exact H|].
  rewrite CloseHandlers_eq. simpl_res. only_tac.
  destruct (0 <=? sockFd g); only_tac.
  destruct (negb (ret_val a =? 0)); only_tac.
Qed.

Lemma close_error_is_logged (a : answer) (g : globals) :
  0 <= sockFd g -> ret_val a <> 0 ->
  In (Log "ERROR: Could not close fd %s: %s (%d).\n"
          [ArgStr "Socket"; ArgStrerror (ret_errno a); ArgInt (ret_errno a)])
     (tr (CloseHandlers a g)).
Proof.
  intros Hfd Ha. rewrite CloseHandlers_eq. simpl_res.
  apply Z.leb_le in Hfd. apply Z.eqb_neq in Ha. rewrite Hfd, Ha.
  cbn. auto 8.
Qed.

(** ** Leaving a run *)

(** The tail of [RunLoop] that follows [CloseHandlers]. *)
Lemma RunLoop_leave_split (c : cycle_env) (g : globals) :
  exists t,
    tr (RunLoop_leave c g) = tr (CloseHandlers (c_close c) g) ++ t
    /\ only nanosleep_call t
    /\ (val (RunLoop_leave c g) = ExitCode_Main_EventLoopSimReboot ->
        In (Call (nanosleep 10 0)) t /\ exitCode g = ExitCode_Main_EventLoopSimReboot)
    /\ (exitCode g <> ExitCode_Main_EventLoopSimReboot -> t = []).
Proof.
  rewrite RunLoop_leave_eq. cbv zeta. rewrite !maybe_SIGTERM_eq. simpl_res.
  pose proof (CloseHandlers_exitCode (c_close c) g) as Hc.
  destruct (ExitCode_eqb _ ExitCode_Main_EventLoopSimReboot) eqn:E; simpl_res.
  - apply ExitCode_eqb_eq in E. eexists. split; [reflexivity|].
    assert (Hg : exitCode g = ExitCode_Main_EventLoopSimReboot).
    { destruct (c_sig_close c); simpl_res; [discriminate E | congruence]. }
    split; [|split].
    + only_tac. destruct (ret_val (c_sleep c) =? -1); only_tac.
    + intros _. split; [right; left; reflexivity | exact Hg].
    + intros H. contradiction.
  - apply ExitCode_eqb_neq in E. exists []. rewrite app_nil_r.
    split; [reflexivity|]. split; [apply only_nil|]. split; [|reflexivity].
    intros H. exfalso.
    destruct (c_sig_sleep c); simpl_res_in H; [discriminate H | contradiction].
Qed.

Lemma RunLoop_leave_handles (c : cycle_env) (g : globals) :
  handles (st (RunLoop_leave c g)) = handles g.
Proof.
  rewrite RunLoop_leave_eq. cbv zeta.
  destruct (ExitCode_eqb _ ExitCode_Main_EventLoopSimReboot); simpl_res;
    rewrite ?maybe_SIGTERM_handles, ?handles_with_errno, ?maybe_SIGTERM_handles;
    apply CloseHandlers_handles.
Qed.

Lemma RunLoop_leave_iter (c : cycle_env) (g : globals) :
  iter (st (RunLoop_leave c g)) = iter g.
Proof.
  rewrite RunLoop_leave_eq. cbv zeta.
  destruct (ExitCode_eqb _ ExitCode_Main_EventLoopSimReboot); simpl_res;
    rewrite !maybe_SIGTERM_iter; simpl_res; rewrite ?maybe_SIGTERM_iter;
    apply CloseHandlers_iter.
Qed.

Lemma RunLoop_leave_val (c : cycle_env) (g : globals) :
  val (RunLoop_leave c g) = exitCode (st (RunLoop_leave c g)).
Proof.
  rewrite RunLoop_leave_eq. cbv zeta.
  destruct (ExitCode_eqb _ ExitCode_Main_EventLoopSimReboot); reflexivity.
Qed.

(** What [RunLoop] returns, given how the loop was left. *)
Lemma RunLoop_Some (c : cycle_env) (g : globals) (r : res ExitCode) :
  RunLoop c g = Some r ->
  exists r1,
    dispatch_loop (c_loop c) (st (RunLoop_enter c g)) = Some r1
    /\ r = mkRes (val (RunLoop_leave c (st r1))) (st (RunLoop_leave c (st r1)))
                 (tr (RunLoop_enter c g) ++ tr r1 ++ tr (RunLoop_leave c (st r1))).
Proof.
  unfold RunLoop.
  destruct (dispatch_loop (c_loop c) (st (RunLoop_enter c g))) as [r1|]; [|discriminate].
  intros H. injection H as <-. exists r1. split; reflexivity.
Qed.

Lemma RunLoop_of_loop (c : cycle_env) (g : globals) (r1 : res unit) :
  dispatch_loop (c_loop c) (st (RunLoop_enter c g)) = Some r1 ->
  RunLoop c g =
  Some (mkRes (val (RunLoop_leave c (st r1))) (st (RunLoop_leave c (st r1)))
              (tr (RunLoop_enter c g) ++ tr r1 ++ tr (RunLoop_leave c (st r1)))).
Proof. intros H. unfold RunLoop. rewrite H. reflexivity. Qed.

(** The run returns exactly when the loop is left. *)
Lemma RunLoop_blocked_iff (c : cycle_env) (g : globals) :
  RunLoop c g = None <-> dispatch_loop (c_loop c) (st (RunLoop_enter c g)) = None.
Proof.
  unfold RunLoop.
  destruct (dispatch_loop (c_loop c) (st (RunLoop_enter c g))); split; congruence.
Qed.

Lemma RunLoop_val (c : cycle_env) (g : globals) (r : res ExitCode) :
  RunLoop c g = Some r -> val r = exitCode (st r).
Proof.
  intros H. destruct (RunLoop_Some c g r H) as (r1 & _ & ->). apply RunLoop_leave_val.
Qed.

(** C5: whenever a run returns, whatever ended its loop, its trace holds
    the calls of the shutdown step exactly once and in order, after the
    loop and before the return: the timer is disposed, the readiness
    registration unregistered, the dispatcher closed, and the channel
    descriptor closed when it is a descriptor (not negative); a failing
    close is logged and the exit code is left as it was. *)
Theorem shutdown_exactly_once (c : cycle_env) (g : globals) (r : res ExitCode) :
  RunLoop c g = Some r ->
  calls shutdown_call (tr r) = shutdown_calls_of (st r)
  /\ (exists r1 t,
        dispatch_loop (c_loop c) (st (RunLoop_enter c g)) = Some r1
        /\ handles (st r) = handles (st r1)
        /\ tr r = tr (RunLoop_enter c g) ++ tr r1
                    ++ tr (CloseHandlers (c_close c) (st r1)) ++ t
        /\ calls shutdown_call (tr (RunLoop_enter c g) ++ tr r1) = []
        /\ calls shutdown_call t = [])
  /\ (forall a g0,
        exitCode (st (CloseHandlers a g0)) = exitCode g0
        /\ (0 <= sockFd g0 -> ret_val a <> 0 ->
            In (Log "ERROR: Could not close fd %s: %s (%d).\n"
                    [ArgStr "Socket"; ArgStrerror (ret_errno a); ArgInt (ret_errno a)])
               (tr (CloseHandlers a g0)))).
Proof.
  intros H. destruct (RunLoop_Some c g r H) as (r1 & Hloop & ->). cbn [st tr val].
  destruct (RunLoop_leave_split c (st r1)) as (t & Ht & Hsleep & _).
  destruct (dispatch_loop_exit _ _ _ Hloop) as (_ & Honly & _).
  assert (H0 : calls shutdown_call (tr (RunLoop_enter c g)) = []).
  { apply (only_calls_nil init_call); [|apply RunLoop_enter_only].
    intros [] E; try discriminate E; reflexivity. }
  assert (H1 : calls shutdown_call (tr r1) = []).
  { apply (only_calls_nil loop_call); [|exact Honly].
    intros [] E; try discriminate E; reflexivity. }
  assert (H2 : calls shutdown_call t = []).
  { apply (only_calls_nil nanosleep_call); [|exact Hsleep].
    intros [] E; try discriminate E; reflexivity. }
  split; [|split].
  - rewrite !calls_app, H0, H1, Ht, calls_app, H2, CloseHandlers_calls, app_nil_r.
    cbn [app]. apply shutdown_calls_of_handles. symmetry. apply RunLoop_leave_handles.
  - exists r1, t. split; [exact Hloop|]. split; [apply RunLoop_leave_handles|].
    split; [now rewrite Ht|]. split; [|exact H2].
    rewrite calls_app, H0, H1. reflexivity.
  - intros a g0. split; [apply CloseHandlers_exitCode | apply close_error_is_logged].
Qed.

Lemma shutdown_exactly_once_witness :
  (exists r,
     RunLoop cycle_recv_failure initial_globals = Some r
     /\ calls shutdown_call (tr r) = shutdown_calls_of (st r)
     /\ shutdown_calls_of (st r) =
        [Call (DisposeEventLoopTimer 200); Call (EventLoop_UnregisterIo 100 300);
         Call (EventLoop_Close 100); Call (close 3)])
  /\ 0 <= sockFd (with_sockFd 3 initial_globals)
  /\ ret_val (failed 9) <> 0
  /\ In (Log "ERROR: Could not close fd %s: %s (%d).\n"
             [ArgStr "Socket"; ArgStrerror 9; ArgInt 9])
        (tr (CloseHandlers (failed 9) (with_sockFd 3 initial_globals))).
Proof.
  destruct (RunLoop cycle_recv_failure initial_globals) as [r|] eqn:E;
    [|vm_compute in E; discriminate E].
  pose proof (shutdown_exactly_once cycle_recv_failure initial_globals r E)
    as (H1 & _ & H3).
  split.
  - exists r. split; [reflexivity|]. split; [exact H1|].
    vm_compute in E. injection E as <-. reflexivity.
  - assert (Hfd : 0 <= sockFd (with_sockFd 3 initial_globals)) by (cbn; lia).
    assert (Hret : ret_val (failed 9) <> 0) by discriminate.
    split; [exact Hfd|]. split; [exact Hret|].
    exact (proj2 (H3 (failed 9) (with_sockFd 3 initial_globals)) Hfd Hret).
Defined.

Lemma RunLoop_leave_no_reboot (c : cycle_env) (g : globals) :
  exitCode g <> ExitCode_Main_EventLoopSimReboot ->
  val (RunLoop_leave c g) = exitCode g
  \/ val (RunLoop_leave c g) = ExitCode_TermHandler_SigTerm.
Proof.
  intros Hg. rewrite RunLoop_leave_eq. cbv zeta. rewrite !maybe_SIGTERM_eq.
  pose proof (CloseHandlers_exitCode (c_close c) g) as Hc.
  apply ExitCode_eqb_neq in Hg.
  destruct (c_sig_close c); simpl_res.
  - change (ExitCode_eqb ExitCode_TermHandler_SigTerm ExitCode_Main_EventLoopSimReboot)
      with false. cbv iota.
    destruct (c_sig_sleep c); right; reflexivity.
  - rewrite Hc, Hg. destruct (c_sig_sleep c); simpl_res; [right; reflexivity|].
    left. exact Hc.
Qed.


(** The calls of a run, phase by phase; [r1] is how the loop was left. *)
Lemma RunLoop_calls (c : cycle_env) (g : globals) (r : res ExitCode) :
  RunLoop c g = Some r ->
  exists r1,
    dispatch_loop (c_loop c) (st (RunLoop_enter c g)) = Some r1
    /\ handles (st r) = handles (st r1)
    /\ iter (st r) = iter (st r1)
    /\ calls shutdown_call (tr r) = shutdown_calls_of (st r)
    /\ calls create_call (tr r) = [Call EventLoop_Create]
    /\ (exitCode (st r1) <> ExitCode_Main_EventLoopSimReboot ->
        calls nanosleep_call (tr r) = []
        /\ (val r = exitCode (st r1) \/ val r = ExitCode_TermHandler_SigTerm))
    /\ (val r = ExitCode_Main_EventLoopSimReboot ->
        In (Call (nanosleep 10 0)) (tr r)
        /\ exitCode (st r1) = ExitCode_Main_EventLoopSimReboot).
Proof.
  intros H. destruct (RunLoop_Some c g r H) as (r1 & Hloop & ->). cbn [st tr val].
  exists r1. split; [exact Hloop|].
  destruct (RunLoop_leave_split c (st r1)) as (t & Ht & Hsleep & Hreboot & Hquiet).
  destruct (dispatch_loop_exit _ _ _ Hloop) as (_ & Honly & _).
  pose proof (RunLoop_enter_only c g) as Hinit.
  assert (D1 : forall x, init_call x = true -> shutdown_call x = false)
    by (intros [] E; try discriminate E; reflexivity).
  assert (D2 : forall x, loop_call x = true -> shutdown_call x = false)
    by (intros [] E; try discriminate E; reflexivity).
  assert (D3 : forall x, nanosleep_call x = true -> shutdown_call x = false)
    by (intros [] E; try discriminate E; reflexivity).
  assert (D4 : forall x, loop_call x = true -> create_call x = false)
    by (intros [] E; try discriminate E; reflexivity).
  assert (D5 : forall x, nanosleep_call x = true -> create_call x = false)
    by (intros [] E; try discriminate E; reflexivity).
  assert (D6 : forall x, shutdown_call x = true -> create_call x = false)
    by (intros [] E; try discriminate E; reflexivity).
  assert (D7 : forall x, init_call x = true -> nanosleep_call x = false)
    by (intros [] E; try discriminate E; reflexivity).
  assert (D8 : forall x, loop_call x = true -> nanosleep_call x = false)
    by (intros [] E; try discriminate E; reflexivity).
  assert (D9 : forall x, shutdown_call x = true -> nanosleep_call x = false)
    by (intros [] E; try discriminate E; reflexivity).
  rewrite Ht, !calls_app.
  rewrite (only_calls_nil _ _ _ D1 Hinit), (only_calls_nil _ _ _ D2 Honly),
    (only_calls_nil _ _ _ D3 Hsleep), (only_calls_nil _ _ _ D4 Honly),
    (only_calls_nil _ _ _ D5 Hsleep), (only_calls_nil _ _ _ D7 Hinit),
    (only_calls_nil _ _ _ D8 Honly), CloseHandlers_calls,
    (CloseHandlers_other_calls _ _ _ D6), (CloseHandlers_other_calls _ _ _ D9).
  cbn [app]. rewrite !app_nil_r.
  split; [apply RunLoop_leave_handles|]. split; [apply RunLoop_leave_iter|].
  split; [|split; [|split]].
  - apply shutdown_calls_of_handles. symmetry. apply RunLoop_leave_handles.
  - rewrite RunLoop_enter_eq. cbv zeta. simpl_res. cbn [calls filter event_in].
    apply InitHandlers_creates_once.
  - intros Hg. rewrite (Hquiet Hg). split; [reflexivity|].
    now apply RunLoop_leave_no_reboot.
  - intros Hv. destruct (Hreboot Hv) as (Hin & Hg). split; [|exact Hg].
    apply in_or_app. right. apply in_or_app. right.
    apply in_or_app. right. exact Hin.
Qed.

(** ** The restart loop *)

Lemma main_loop_cons (c : cycle_env) (w : list cycle_env) (g : globals)
      (r : res ExitCode) :
  RunLoop c g = Some r ->
  main_loop (c :: w) g =
  let g' := st (maybe_SIGTERM (c_sig_return c) (st r)) in
  if ExitCode_eqb (val r) ExitCode_Main_EventLoopSimReboot
  then after (tr r) (main_loop w g')
  else Some (mkRes (ExitCode_value (exitCode g')) g'
                   (tr r ++ [Log "Application exiting.\n" []])).
Proof.
  intros H. cbn [main_loop]. rewrite H. cbv zeta. rewrite maybe_SIGTERM_tr.
  destruct (ExitCode_eqb (val r) ExitCode_Main_EventLoopSimReboot).
  - destruct (main_loop w _) as [r''|]; reflexivity.
  - unfold_ops. reflexivity.
Qed.

(** The exit status is never that of the simulated reboot. *)
Lemma main_loop_status (w : list cycle_env) :
  forall g r, main_loop w g = Some r ->
              val r <> ExitCode_value ExitCode_Main_EventLoopSimReboot.
Proof.
  induction w as [|c w IH]; intros g r H; [discriminate H|].
  destruct (RunLoop c g) as [r0|] eqn:E; [|cbn [main_loop] in H; rewrite E in H; discriminate H].
  rewrite (main_loop_cons c w g r0 E) in H. cbv zeta in H.
  destruct (ExitCode_eqb (val r0) ExitCode_Main_EventLoopSimReboot) eqn:Ev.
  - destruct (main_loop w _) as [r'|] eqn:E'; [|discriminate H].
    injection H as <-. cbn [val]. exact (IH _ _ E').
  - injection H as <-. cbn [val]. apply ExitCode_eqb_neq in Ev.
    rewrite (RunLoop_val c g r0 E) in Ev. rewrite maybe_SIGTERM_eq.
    destruct (c_sig_return c); simpl_res; [discriminate|].
    intros Heq. apply Ev. destruct (exitCode (st r0)); try discriminate Heq; reflexivity.
Qed.

Lemma main_eq (w : list cycle_env) :
  main w =
  after [Log "High-level intercore comms application\n" [];
         Log "Sends data to, and receives data from a real-time capable application.\n" [];
         Call sigaction_SIGTERM]
        (main_loop w initial_globals).
Proof. reflexivity. Qed.

(** C3: a run that returns the simulated-reboot code has paused with
    nanosleep for 10 seconds and is followed by a further whole run;
    a run that returns any other code ends the process, whose exit status
    is that code (or the termination-request code when SIGTERM arrives
    after the run has returned); the exit status of the process is never
    the simulated-reboot code. *)
Theorem only_simulated_reboot_restarts
        (c : cycle_env) (w : list cycle_env) (g : globals) (r : res ExitCode) :
  RunLoop c g = Some r ->
  (val r = ExitCode_Main_EventLoopSimReboot ->
     In (Call (nanosleep 10 0)) (tr r)
     /\ main_loop (c :: w) g =
        after (tr r) (main_loop w (st (maybe_SIGTERM (c_sig_return c) (st r)))))
  /\ (val r <> ExitCode_Main_EventLoopSimReboot ->
      exists r',
        main_loop (c :: w) g = Some r'
        /\ val r' = ExitCode_value
                      (if c_sig_return c then ExitCode_TermHandler_SigTerm else val r)
        /\ tr r' = tr r ++ [Log "Application exiting.\n" []])
  /\ (forall w0 r0, main w0 = Some r0 ->
                    val r0 <> ExitCode_value ExitCode_Main_EventLoopSimReboot).
Proof.
  intros H. split; [|split].
  - intros Hv. destruct (RunLoop_calls c g r H) as (r1 & _ & _ & _ & _ & _ & _ & Hn).
    split; [exact (proj1 (Hn Hv))|].
    rewrite (main_loop_cons c w g r H). cbv zeta.
    apply ExitCode_eqb_eq in Hv. now rewrite Hv.
  - intros Hv. rewrite (main_loop_cons c w g r H). cbv zeta.
    apply ExitCode_eqb_neq in Hv. rewrite Hv. eexists. split; [reflexivity|].
    cbn [val tr]. split; [|reflexivity].
    rewrite maybe_SIGTERM_eq, (RunLoop_val c g r H).
    destruct (c_sig_return c); reflexivity.
  - intros w0 r0 H0. rewrite main_eq in H0.
    destruct (main_loop w0 initial_globals) as [r'|] eqn:E; [|discriminate H0].
    injection H0 as <-. cbn [val]. exact (main_loop_status _ _ _ E).
Qed.

Lemma only_simulated_reboot_restarts_witness :
  (exists r,
     RunLoop cycle_reboot initial_globals = Some r
     /\ val r = ExitCode_Main_EventLoopSimReboot
     /\ In (Call (nanosleep 10 0)) (tr r))
  /\ (exists r r',
        RunLoop cycle_recv_failure initial_globals = Some r
        /\ val r <> ExitCode_Main_EventLoopSimReboot
        /\ main_loop [cycle_recv_failure; cycle_reboot] initial_globals = Some r'
        /\ val r' = 4).
Proof.
  split.
  - destruct (RunLoop cycle_reboot initial_globals) as [r|] eqn:E;
      [|vm_compute in E; discriminate E].
    exists r. split; [reflexivity|].
    assert (Hv : val r = ExitCode_Main_EventLoopSimReboot)
      by (vm_compute in E; injection E as <-; reflexivity).
    split; [exact Hv|].
    exact (proj1 (proj1 (only_simulated_reboot_restarts
                           cycle_reboot [] initial_globals r E) Hv)).
  - destruct (RunLoop cycle_recv_failure initial_globals) as [r|] eqn:E;
      [|vm_compute in E; discriminate E].
    assert (Hv : val r = ExitCode_SocketHandler_Recv)
      by (vm_compute in E; injection E as <-; reflexivity).
    assert (Hne : val r <> ExitCode_Main_EventLoopSimReboot)
      by (rewrite Hv; discriminate).
    destruct (proj1 (proj2 (only_simulated_reboot_restarts
                              cycle_recv_failure [cycle_reboot] initial_globals r E)) Hne)
      as (r' & Hm & Hs & _).
    exists r, r'. split; [reflexivity|]. split; [exact Hne|]. split; [exact Hm|].
    rewrite Hs, Hv. reflexivity.
Defined.

(** ** Termination request *)

Lemma RunLoop_leave_SigTerm (c : cycle_env) (g : globals) :
  exitCode g = ExitCode_TermHandler_SigTerm ->
  val (RunLoop_leave c g) = ExitCode_TermHandler_SigTerm.
Proof.
  intros Hg. destruct (RunLoop_leave_no_reboot c g) as [H|H];
    [rewrite Hg; discriminate | congruence | exact H].
Qed.

(** The loop after SIGTERM has arrived before any callback. *)
Lemma dispatch_loop_sigterm_first (d : dispatch) (ds : list dispatch) (g : globals) :
  exitCode g = ExitCode_Success ->
  d_sigterm d = true
  \/ (d_sigterm d = false /\ d_actions d = [Sigterm]
      /\ (d_result d = EventLoop_Run_Failed -> d_errno d = EINTR)) ->
  exists r, dispatch_loop (d :: ds) g = Some r
            /\ exitCode (st r) = ExitCode_TermHandler_SigTerm.
Proof.
  intros Hg [Hs|(Hs & Ha & Hr)].
  - cbn [dispatch_loop]. rewrite Hs. cbn. eexists. split; reflexivity.
  - assert (E : exitCode (st (loop_body d g)) = ExitCode_TermHandler_SigTerm).
    { rewrite loop_body_exitCode, Ha.
      destruct (d_result d); cbn [is_Run_Failed andb]; try reflexivity.
      rewrite (Hr eq_refl). reflexivity. }
    destruct (dispatch_loop_last_round d ds g Hs Hg) as (r & H1 & _ & _ & _ & _ & H2).
    + rewrite E. discriminate.
    + exists r. split; [exact H1|]. destruct H2; congruence.
Qed.

(** C7: the SIGTERM handler does nothing but store the termination code
    in exitCode: no call, no log, no other variable; and when SIGTERM
    arrives after a successful initialisation and before any callback
    (before the first test of the loop, or during the first wait, which
    then does not fail otherwise), the process shuts down once, does not
    pause, does not start another run and exits with the termination
    code. *)
Theorem termination_request
        (c : cycle_env) (w : list cycle_env) (g : globals)
        (d : dispatch) (ds : list dispatch) :
  (forall signalNumber g0,
     TerminationHandler signalNumber g0 =
     mkRes tt (with_exitCode ExitCode_TermHandler_SigTerm g0) [])
  /\ (exitCode (st (RunLoop_enter c g)) = ExitCode_Success ->
      c_loop c = d :: ds ->
      d_sigterm d = true
      \/ (d_sigterm d = false /\ d_actions d = [Sigterm]
          /\ (d_result d = EventLoop_Run_Failed -> d_errno d = EINTR)) ->
      exists r,
        main_loop (c :: w) g = Some r
        /\ val r = ExitCode_value ExitCode_TermHandler_SigTerm
        /\ calls shutdown_call (tr r) = shutdown_calls_of (st r)
        /\ calls nanosleep_call (tr r) = []
        /\ calls create_call (tr r) = [Call EventLoop_Create]).
Proof.
  split; [reflexivity|]. intros Hinit Hloop Hsig.
  destruct (dispatch_loop_sigterm_first d ds _ Hinit Hsig) as (r1 & Hr1 & He1).
  rewrite <- Hloop in Hr1. pose proof (RunLoop_of_loop c g r1 Hr1) as HR.
  set (r := mkRes (val (RunLoop_leave c (st r1))) (st (RunLoop_leave c (st r1)))
                  (tr (RunLoop_enter c g) ++ tr r1 ++ tr (RunLoop_leave c (st r1)))) in HR.
  assert (Hv : val r = ExitCode_TermHandler_SigTerm)
    by (apply RunLoop_leave_SigTerm; exact He1).
  destruct (RunLoop_calls c g r HR) as (r1' & Hr1' & _ & _ & Hsh & Hcr & Hns & _).
  assert (r1' = r1) by congruence. subst r1'.
  destruct Hns as (Hns & _); [rewrite He1; discriminate|].
  rewrite (main_loop_cons c w g r HR). cbv zeta. rewrite Hv.
  change (ExitCode_eqb ExitCode_TermHandler_SigTerm ExitCode_Main_EventLoopSimReboot)
    with false. cbv iota.
  eexists. split; [reflexivity|]. cbn [val st tr].
  assert (Hex : exitCode (st (maybe_SIGTERM (c_sig_return c) (st r))) =
                ExitCode_TermHandler_SigTerm).
  { rewrite maybe_SIGTERM_eq. destruct (c_sig_return c); simpl_res; [reflexivity|].
    rewrite <- (RunLoop_val c g r HR). exact Hv. }
  split; [rewrite Hex; reflexivity|].
  rewrite !calls_app, Hsh, Hns, Hcr. cbn [calls filter event_in app].
  rewrite !app_nil_r. split; [|split; reflexivity].
  apply shutdown_calls_of_handles. symmetry. apply maybe_SIGTERM_handles.
Qed.

Lemma termination_request_witness :
  exitCode (st (RunLoop_enter cycle_sigterm initial_globals)) = ExitCode_Success
  /\ exists r,
      main_loop [cycle_sigterm] initial_globals = Some r
      /\ val r = 1
      /\ calls shutdown_call (tr r) = shutdown_calls_of (st r)
      /\ calls nanosleep_call (tr r) = []
      /\ calls create_call (tr r) = [Call EventLoop_Create].
Proof.
  split; [reflexivity|].
  exact (proj2 (termination_request cycle_sigterm [] initial_globals
                  (mkDispatch false [Sigterm] EventLoop_Run_Failed EINTR) [])
               eq_refl eq_refl
               (or_intror (conj eq_refl (conj eq_refl (fun _ => eq_refl))))).
Defined.

(** ** Restart after the sentinel *)












(** ** Connection failure *)

(** A run in which the loop and the timer are created and the connection
    then fails: what it does, from any state of the variables. *)
Lemma connect_failure_run (c : cycle_env) (g : globals) :
  ret_val (ie_EventLoop_Create (c_init c)) <> NULL ->
  ret_val (ie_CreateTimer (c_init c)) <> NULL ->
  ret_val (ie_Connect (c_init c)) = -1 ->
  c_loop c = [] -> c_sig_close c = false -> c_sig_sleep c = false ->
  exists r,
    RunLoop c g = Some r
    /\ val r = ExitCode_Init_Connection
    /\ tr r =
       [Log "Running main loop.\n" [];
        Call EventLoop_Create;
        Call (CreateEventLoopPeriodicTimer (ret_val (ie_EventLoop_Create (c_init c))) 1 0);
        Call (Application_Connect rtAppComponentId);
        Log "ERROR: Unable to create socket: %d (%s)\n"
            [ArgInt (ret_errno (ie_Connect (c_init c)));
             ArgStrerror (ret_errno (ie_Connect (c_init c)))];
        Call (DisposeEventLoopTimer (ret_val (ie_CreateTimer (c_init c))));
        Call (EventLoop_UnregisterIo (ret_val (ie_EventLoop_Create (c_init c)))
                                     (socketEventReg g));
        Call (EventLoop_Close (ret_val (ie_EventLoop_Create (c_init c))));
        Log "Closing file descriptors.\n" []].
Proof.
  intros H1 H2 H3 Hl Hc Hs.
  apply Z.eqb_neq in H1, H2. apply Z.eqb_eq in H3.
  unfold RunLoop. rewrite Hl, RunLoop_enter_eq, InitHandlers_eq. cbv zeta.
  rewrite H1, H2, H3. simpl_res. cbn [dispatch_loop].
  change (ExitCode_eqb ExitCode_Init_Connection ExitCode_Success) with false.
  cbv iota. eexists. split; [reflexivity|]. cbn [val st tr ret].
  rewrite RunLoop_leave_eq, Hc, Hs, CloseHandlers_eq. cbv zeta.
  cbn [maybe_SIGTERM ret st]. simpl_res.
  rewrite !maybe_SIGTERM_eq. simpl_res.
  apply Z.eqb_eq in H3. rewrite H3.
  change (0 <=? -1) with false. cbv iota. simpl_res.
  destruct (c_sig_init c); simpl_res; split; reflexivity.
Qed.

(** C6, at a run the code can meet: the first cycle registers the channel
    for readiness, receives the sentinel and shuts down; in the restarted
    cycle the connection fails.  No later step of initialisation is tried
    and the process exits with the connection-failure status, but the
    shutdown of that cycle calls EventLoop_UnregisterIo on the
    registration of the first cycle, which this cycle never created and
    which has been unregistered already. *)
Theorem stale_registration_is_unregistered_again :
  exists r,
    main world_reboot_then_no_connection = Some r
    /\ val r = ExitCode_value ExitCode_Init_Connection
    /\ calls registration_call (tr r) =
       [Call (EventLoop_RegisterIo 100 3);
        Call (EventLoop_UnregisterIo 100 300);
        Call (EventLoop_UnregisterIo 101 300)].
Proof.
  eexists. split; [vm_compute; reflexivity|]. split; reflexivity.
Qed.

(** * Further properties *)

(** ** The timer handler *)

(** An action that always sets [exitCode] ends the loop wherever it
    occurs in a dispatch. *)
Lemma setting_action_sets_exitCode (x : action) (l : list action) :
  (forall g, exitCode (st (run_action x g)) <> ExitCode_Success) ->
  forall g, In x l -> exitCode (st (run_actions l g)) <> ExitCode_Success.
Proof.
  intros Hx. induction l as [|y l IH]; intros g Hin; [destruct Hin|].
  rewrite run_actions_cons. cbn [st]. destruct Hin as [->|Hin].
  - apply run_actions_stays_set. apply Hx.
  - now apply IH.
Qed.

Lemma round_with_setting_action (x : action) (d : dispatch) (ds : list dispatch)
      (g : globals) :
  (forall g0, exitCode (st (run_action x g0)) <> ExitCode_Success) ->
  d_sigterm d = false -> exitCode g = ExitCode_Success -> In x (d_actions d) ->
  exists r, dispatch_loop (d :: ds) g = Some r
            /\ tr r = tr (loop_body d g)
            /\ exitCode (st r) <> ExitCode_Success.
Proof.
  intros Hx Hs Hg Hin.
  destruct (dispatch_loop_last_round d ds g Hs Hg) as (r & Hr & Ht & _ & _ & He & _).
  - rewrite loop_body_exitCode.
    destruct (is_Run_Failed (d_result d) && negb (d_errno d =? EINTR));
      [discriminate|]. now apply (setting_action_sets_exitCode x).
  - exists r. auto.
Qed.

(** When the timer event cannot be consumed the handler stops there: the
    only call is ConsumeEventLoopTimerEvent, nothing is sent, the counter
    and the handles keep their values, the exit code becomes
    ExitCode_TimerHandler_Consume, and the dispatch loop returns after
    that round. *)
Theorem timer_consume_failure (timer : Z) (c a : answer) (g : globals) :
  ret_val c <> 0 ->
  tr (SendTimerEventHandler timer c a g) = [Call (ConsumeEventLoopTimerEvent timer)]
  /\ sent_payloads (tr (SendTimerEventHandler timer c a g)) = []
  /\ iter (st (SendTimerEventHandler timer c a g)) = iter g
  /\ handles (st (SendTimerEventHandler timer c a g)) = handles g
  /\ exitCode (st (SendTimerEventHandler timer c a g)) = ExitCode_TimerHandler_Consume
  /\ forall d ds g0,
       d_sigterm d = false -> exitCode g0 = ExitCode_Success ->
       In (Timer_fires c a) (d_actions d) ->
       exists r, dispatch_loop (d :: ds) g0 = Some r
                 /\ tr r = tr (loop_body d g0)
                 /\ exitCode (st r) <> ExitCode_Success.
Proof.
  intros Hc. apply Z.eqb_neq in Hc.
  rewrite SendTimerEventHandler_eq, Hc. cbn [negb].
  do 5 (split; [reflexivity|]).
  intros d ds g0 Hs Hg Hin.
  apply (round_with_setting_action (Timer_fires c a)); try assumption.
  intros g1. rewrite run_action_eq, SendTimerEventHandler_eq, Hc. discriminate.
Qed.

Lemma timer_consume_failure_witness :
  ret_val (failed 5) <> 0
  /\ exitCode (st (SendTimerEventHandler 200 (failed 5) (ok 25) initial_globals))
     = ExitCode_TimerHandler_Consume
  /\ exists r,
      dispatch_loop [dispatched [Timer_fires (failed 5) (ok 25)];
                     dispatched [Timer_fires (ok 0) (ok 25)]] initial_globals = Some r
      /\ exitCode (st r) <> ExitCode_Success.
Proof.
  assert (Hc : ret_val (failed 5) <> 0) by discriminate.
  destruct (timer_consume_failure 200 (failed 5) (ok 25) initial_globals Hc)
    as (_ & _ & _ & _ & He & Hl).
  split; [exact Hc|]. split; [exact He|].
  destruct (Hl (dispatched [Timer_fires (failed 5) (ok 25)])
               [dispatched [Timer_fires (ok 0) (ok 25)]] initial_globals
               eq_refl eq_refl (or_introl eq_refl)) as (r & Hr & _ & Hx).
  exists r. split; [exact Hr | exact Hx].
Defined.

(** ** The receive handler *)

(** A failed read is reported and nothing else: the buffer is neither
    logged nor classified, so whatever it holds, the sentinel included,
    the exit code becomes ExitCode_SocketHandler_Recv and never the
    simulated-reboot code; the dispatch loop returns after that round. *)
Theorem recv_failure (fd e : Z) (rxBuf : string) (g : globals) :
  tr (SocketEventHandler fd (mkAnswer (-1) e) rxBuf g) =
    [Call (recv fd RECV_BUFF_SIZE);
     Log "SocketEventHandler\n" [];
     Log "ERROR: Unable to receive message: %d (%s)\n" [ArgInt e; ArgStrerror e]]
  /\ st (SocketEventHandler fd (mkAnswer (-1) e) rxBuf g) =
     with_exitCode ExitCode_SocketHandler_Recv (with_errno e g)
  /\ logged_chars (tr (SocketEventHandler fd (mkAnswer (-1) e) rxBuf g)) = []
  /\ forall d ds g0,
       d_sigterm d = false -> exitCode g0 = ExitCode_Success ->
       In (Socket_readable (mkAnswer (-1) e) rxBuf) (d_actions d) ->
       exists r, dispatch_loop (d :: ds) g0 = Some r
                 /\ tr r = tr (loop_body d g0)
                 /\ exitCode (st r) <> ExitCode_Success.
Proof.
  rewrite SocketEventHandler_eq. cbn [ret_val ret_errno Z.eqb Pos.eqb].
  do 3 (split; [reflexivity|]).
  intros d ds g0 Hs Hg Hin.
  apply (round_with_setting_action (Socket_readable (mkAnswer (-1) e) rxBuf));
    try assumption.
  intros g1. rewrite run_action_eq, SocketEventHandler_exitCode. discriminate.
Qed.

Lemma recv_failure_witness :
  exists r,
    dispatch_loop [dispatched [Socket_readable (mkAnswer (-1) 11) "reboot!!"];
                   dispatched []] initial_globals = Some r
    /\ exitCode (st r) <> ExitCode_Success.
Proof.
  destruct (proj2 (proj2 (proj2 (recv_failure (-1) 11 "reboot!!" initial_globals)))
                  (dispatched [Socket_readable (mkAnswer (-1) 11) "reboot!!"])
                  [dispatched []] initial_globals eq_refl eq_refl (or_introl eq_refl))
    as (r & Hr & _ & Hx).
  exists r. split; [exact Hr | exact Hx].
Defined.

Lemma logged_chars_app (t1 t2 : trace) :
  logged_chars (t1 ++ t2) = logged_chars t1 ++ logged_chars t2.
Proof. apply flat_map_app. Qed.

Lemma isprint_shown (c : ascii) : isprint (shown c) = true.
Proof. unfold shown. destruct (isprint c) eqn:E; [exact E | reflexivity]. Qed.

Lemma received_log_chars (n : nat) :
  forall buf, (n <= String.length buf)%nat ->
              logged_chars (received_log buf n) =
              map shown (firstn n (list_ascii_of_string buf)).
Proof.
  induction n as [|n IH]; intros buf Hn; [reflexivity|].
  destruct buf as [|c buf]; [cbn in Hn; lia|].
  cbn [received_log head_char tail_chars list_ascii_of_string firstn map].
  change (logged_chars (?e :: ?t)) with (logged_char e ++ logged_chars t).
  cbn [logged_char app]. rewrite IH by (cbn in Hn; lia). reflexivity.
Qed.

(** After a successful read of n bytes that fit the buffer the handler
    logs exactly n characters, one per received byte and in order: the
    byte itself when it is printable and a dot otherwise, so that no
    unprintable character reaches the log. *)
Theorem received_bytes_are_logged_printable
        (fd : Z) (a : answer) (rxBuf : string) (g : globals) :
  ret_val a <> -1 -> (Z.to_nat (ret_val a) <= String.length rxBuf)%nat ->
  logged_chars (tr (SocketEventHandler fd a rxBuf g)) =
    map shown (firstn (Z.to_nat (ret_val a)) (list_ascii_of_string rxBuf))
  /\ List.length (logged_chars (tr (SocketEventHandler fd a rxBuf g))) =
     Z.to_nat (ret_val a)
  /\ Forall (fun c => isprint c = true)
            (logged_chars (tr (SocketEventHandler fd a rxBuf g))).
Proof.
  intros Ha Hn.
  assert (E : logged_chars (tr (SocketEventHandler fd a rxBuf g)) =
              map shown (firstn (Z.to_nat (ret_val a)) (list_ascii_of_string rxBuf))).
  { rewrite SocketEventHandler_eq. cbv zeta. apply Z.eqb_neq in Ha. rewrite Ha.
    cbn [tr]. rewrite !logged_chars_app, received_log_chars by exact Hn.
    change (logged_chars [Call (recv fd RECV_BUFF_SIZE);
                          Log "SocketEventHandler\n" [];
                          Log "Received %d bytes: " [ArgInt (ret_val a)]]) with (@nil ascii).
    cbn [app].
    assert (T : forall t, logged_chars (Log "\n" [] :: t) = logged_chars t)
      by reflexivity.
    rewrite T. destruct (MsgParseIsReboot (Some rxBuf) (ret_val a));
      cbn [logged_chars flat_map logged_char app]; apply app_nil_r. }
  rewrite E. split; [reflexivity|]. split.
  - rewrite length_map, length_firstn.
    assert (L : List.length (list_ascii_of_string rxBuf) = String.length rxBuf).
    { clear. induction rxBuf as [|c s IH]; cbn; congruence. }
    rewrite L. lia.
  - apply Forall_forall. intros c Hin. apply in_map_iff in Hin as (c0 & <- & _).
    apply isprint_shown.
Qed.

Lemma received_bytes_are_logged_printable_witness :
  ret_val (ok 3) <> -1
  /\ (Z.to_nat (ret_val (ok 3)) <= String.length (String "a" (String NUL "b")))%nat
  /\ logged_chars (tr (SocketEventHandler 3 (ok 3) (String "a" (String NUL "b"))
                                          initial_globals))
     = ["a"; "."; "b"]%char.
Proof.
  assert (H1 : ret_val (ok 3) <> -1) by discriminate.
  assert (H2 : (Z.to_nat (ret_val (ok 3)) <= String.length (String "a" (String NUL "b")))%nat)
    by (cbn; lia).
  split; [exact H1|]. split; [exact H2|].
  exact (proj1 (received_bytes_are_logged_printable
                  3 (ok 3) (String "a" (String NUL "b")) initial_globals H1 H2)).
Defined.

(** ** Initialisation *)

(** InitHandlers reports success exactly when all five steps succeed.
    When a step is the first to fail, the calls made are exactly those up
    to and including that step, in order, and no other call of any kind:
    nothing is tried after the first failure; the code returned is the
    one of that step.  When no step fails all five calls are made.  On
    success the variables hold the four handles obtained; exitCode and the
    counter are left to the caller; and the code returned does not depend
    on the state InitHandlers starts from. *)
Theorem InitHandlers_outcome (e : init_env) (g : globals) :
  (val (InitHandlers e g) = ExitCode_Success <->
   ret_val (ie_EventLoop_Create e) <> NULL
   /\ ret_val (ie_CreateTimer e) <> NULL
   /\ ret_val (ie_Connect e) <> -1
   /\ ret_val (ie_setsockopt e) <> -1
   /\ ret_val (ie_RegisterIo e) <> NULL)
  /\ (ret_val (ie_EventLoop_Create e) = NULL ->
      val (InitHandlers e g) = ExitCode_Init_EventLoop
      /\ calls (fun _ => true) (tr (InitHandlers e g)) = firstn 1 (init_calls_of e))
  /\ (ret_val (ie_EventLoop_Create e) <> NULL ->
      ret_val (ie_CreateTimer e) = NULL ->
      val (InitHandlers e g) = ExitCode_Init_SendTimer
      /\ calls (fun _ => true) (tr (InitHandlers e g)) = firstn 2 (init_calls_of e))
  /\ (ret_val (ie_EventLoop_Create e) <> NULL ->
      ret_val (ie_CreateTimer e) <> NULL ->
      ret_val (ie_Connect e) = -1 ->
      val (InitHandlers e g) = ExitCode_Init_Connection
      /\ calls (fun _ => true) (tr (InitHandlers e g)) = firstn 3 (init_calls_of e))
  /\ (ret_val (ie_EventLoop_Create e) <> NULL ->
      ret_val (ie_CreateTimer e) <> NULL ->
      ret_val (ie_Connect e) <> -1 ->
      ret_val (ie_setsockopt e) = -1 ->
      val (InitHandlers e g) = ExitCode_Init_SetSockOpt
      /\ calls (fun _ => true) (tr (InitHandlers e g)) = firstn 4 (init_calls_of e))
  /\ (ret_val (ie_EventLoop_Create e) <> NULL ->
      ret_val (ie_CreateTimer e) <> NULL ->
      ret_val (ie_Connect e) <> -1 ->
      ret_val (ie_setsockopt e) <> -1 ->
      ret_val (ie_RegisterIo e) = NULL ->
      val (InitHandlers e g) = ExitCode_Init_RegisterIo
      /\ calls (fun _ => true) (tr (InitHandlers e g)) = init_calls_of e)
  /\ (val (InitHandlers e g) = ExitCode_Success ->
      calls (fun _ => true) (tr (InitHandlers e g)) = init_calls_of e
      /\ handles (st (InitHandlers e g)) =
         (ret_val (ie_Connect e), ret_val (ie_EventLoop_Create e),
          ret_val (ie_CreateTimer e), ret_val (ie_RegisterIo e)))
  /\ exitCode (st (InitHandlers e g)) = exitCode g
  /\ iter (st (InitHandlers e g)) = iter g
  /\ (forall g', val (InitHandlers e g') = val (InitHandlers e g)).
Proof.
  split; [|split; [|split; [|split; [|split; [|split; [|split; [|split; [|split]]]]]]]].
  - rewrite InitHandlers_eq. cbv zeta.
    destruct (ret_val (ie_EventLoop_Create e) =? NULL) eqn:E1;
      [apply Z.eqb_eq in E1; cbn [val]; split; [discriminate | intros (H & _); contradiction]|].
    destruct (ret_val (ie_CreateTimer e) =? NULL) eqn:E2;
      [apply Z.eqb_eq in E2; cbn [val]; split;
       [discriminate | intros (_ & H & _); contradiction]|].
    destruct (ret_val (ie_Connect e) =? -1) eqn:E3;
      [apply Z.eqb_eq in E3; cbn [val]; split;
       [discriminate | intros (_ & _ & H & _); contradiction]|].
    destruct (ret_val (ie_setsockopt e) =? -1) eqn:E4;
      [apply Z.eqb_eq in E4; cbn [val]; split;
       [discriminate | intros (_ & _ & _ & H & _); contradiction]|].
    destruct (ret_val (ie_RegisterIo e) =? NULL) eqn:E5;
      [apply Z.eqb_eq in E5; cbn [val]; split;
       [discriminate | intros (_ & _ & _ & _ & H); contradiction]|].
    apply Z.eqb_neq in E1, E2, E3, E4, E5. cbn [val]. split; [intros _|reflexivity].
    repeat split; assumption.
  - intros H1. apply Z.eqb_eq in H1.
    rewrite InitHandlers_eq. cbv zeta. rewrite H1. split; reflexivity.
  - intros H1 H2. apply Z.eqb_neq in H1. apply Z.eqb_eq in H2.
    rewrite InitHandlers_eq. cbv zeta. rewrite H1, H2. split; reflexivity.
  - intros H1 H2 H3. apply Z.eqb_neq in H1, H2. apply Z.eqb_eq in H3.
    rewrite InitHandlers_eq. cbv zeta. rewrite H1, H2, H3. split; reflexivity.
  - intros H1 H2 H3 H4. apply Z.eqb_neq in H1, H2, H3. apply Z.eqb_eq in H4.
    rewrite InitHandlers_eq. cbv zeta. rewrite H1, H2, H3, H4. split; reflexivity.
  - intros H1 H2 H3 H4 H5. apply Z.eqb_neq in H1, H2, H3, H4. apply Z.eqb_eq in H5.
    rewrite InitHandlers_eq. cbv zeta. rewrite H1, H2, H3, H4, H5. split; reflexivity.
  - rewrite InitHandlers_eq. cbv zeta. unfold init_calls_of.
    split_ifs; cbn [val]; intros H; try discriminate H; split; reflexivity.
  - rewrite InitHandlers_eq. cbv zeta. split_ifs; reflexivity.
  - apply InitHandlers_iter.
  - intros g'. rewrite !InitHandlers_eq. cbv zeta. split_ifs; reflexivity.
Qed.

Lemma InitHandlers_outcome_witness :
  (val (InitHandlers (init_ok 0) initial_globals) = ExitCode_Success
   /\ handles (st (InitHandlers (init_ok 0) initial_globals)) = (3, 100, 200, 300))
  /\ ret_val (ie_EventLoop_Create (init_no_connection 0)) <> NULL
  /\ ret_val (ie_CreateTimer (init_no_connection 0)) <> NULL
  /\ ret_val (ie_Connect (init_no_connection 0)) = -1
  /\ val (InitHandlers (init_no_connection 0) initial_globals) = ExitCode_Init_Connection
  /\ calls (fun _ => true) (tr (InitHandlers (init_no_connection 0) initial_globals)) =
     [Call EventLoop_Create; Call (CreateEventLoopPeriodicTimer 100 1 0);
      Call (Application_Connect rtAppComponentId)].
Proof.
  split.
  - assert (H : val (InitHandlers (init_ok 0) initial_globals) = ExitCode_Success)
      by reflexivity.
    split; [exact H|].
    destruct (InitHandlers_outcome (init_ok 0) initial_globals)
      as (_ & _ & _ & _ & _ & _ & S & _).
    exact (proj2 (S H)).
  - assert (H1 : ret_val (ie_EventLoop_Create (init_no_connection 0)) <> NULL)
      by discriminate.
    assert (H2 : ret_val (ie_CreateTimer (init_no_connection 0)) <> NULL)
      by discriminate.
    assert (H3 : ret_val (ie_Connect (init_no_connection 0)) = -1) by reflexivity.
    destruct (InitHandlers_outcome (init_no_connection 0) initial_globals)
      as (_ & _ & _ & F & _).
    destruct (F H1 H2 H3) as (Hv & Hc).
    split; [exact H1|]. split; [exact H2|]. split; [exact H3|].
    split; [exact Hv | exact Hc].
Defined.

(** ** The message text *)

(** For the counter values the program reaches, 0 to 99, the text is 25
    characters long, so that it is never cut by the 48 bytes of the
    buffer, and different values give different texts. *)
Theorem messages_fit_and_differ (n m : Z) :
  0 <= n <= 99 -> 0 <= m <= 99 ->
  String.length (txMessage_of n) = 25%nat
  /\ (Z.of_nat (String.length (txMessage_of n)) < TX_MESSAGE_SIZE)
  /\ (txMessage_of n = txMessage_of m -> n = m).
Proof.
  intros Hn Hm. rewrite (txMessage_of_length n Hn).
  split; [reflexivity|]. split; [reflexivity|].
  intros E.
  assert (A : messages_distinct = true) by (vm_compute; reflexivity).
  unfold messages_distinct in A. rewrite forallb_forall in A.
  specialize (A (Z.to_nat n)). rewrite forallb_forall in A by (apply in_seq; lia).
  specialize (A ltac:(apply in_seq; lia) (Z.to_nat m) ltac:(apply in_seq; lia)).
  rewrite !Z2Nat.id in A by lia. rewrite E, String.eqb_refl in A. cbn [implb] in A.
  apply Nat.eqb_eq in A. lia.
Qed.

Lemma messages_fit_and_differ_witness :
  0 <= 7 <= 99 /\ 0 <= 70 <= 99
  /\ String.length (txMessage_of 7) = 25%nat
  /\ (txMessage_of 7 = txMessage_of 70 -> 7 = 70).
Proof.
  assert (H1 : 0 <= 7 <= 99) by lia. assert (H2 : 0 <= 70 <= 99) by lia.
  destruct (messages_fit_and_differ 7 70 H1 H2) as (A & _ & B).
  split; [exact H1|]. split; [exact H2|]. split; [exact A | exact B].
Defined.

(** ** The exit status *)

Lemma RunLoop_leave_val_cases (c : cycle_env) (g : globals) :
  val (RunLoop_leave c g) = exitCode g
  \/ val (RunLoop_leave c g) = ExitCode_TermHandler_SigTerm.
Proof.
  rewrite RunLoop_leave_eq. cbv zeta. rewrite !maybe_SIGTERM_eq.
  pose proof (CloseHandlers_exitCode (c_close c) g) as Hc.
  destruct (ExitCode_eqb _ ExitCode_Main_EventLoopSimReboot);
    destruct (c_sig_close c), (c_sig_sleep c); simpl_res; auto.
Qed.

Lemma RunLoop_never_success (c : cycle_env) (g : globals) (r : res ExitCode) :
  RunLoop c g = Some r -> val r <> ExitCode_Success.
Proof.
  intros H. destruct (RunLoop_Some c g r H) as (r1 & Hloop & ->). cbn [val].
  destruct (dispatch_loop_exit _ _ _ Hloop) as (_ & _ & He).
  destruct (RunLoop_leave_val_cases c (st r1)) as [E|E]; rewrite E;
    [exact He | discriminate].
Qed.

Lemma main_loop_status_nonzero (w : list cycle_env) :
  forall g r, main_loop w g = Some r ->
              exists x, val r = ExitCode_value x /\ x <> ExitCode_Success.
Proof.
  induction w as [|c w IH]; intros g r E; [discriminate E|].
  destruct (RunLoop c g) as [r0|] eqn:ER;
    [|cbn [main_loop] in E; rewrite ER in E; discriminate E].
  rewrite (main_loop_cons c w g r0 ER) in E. cbv zeta in E.
  destruct (ExitCode_eqb (val r0) ExitCode_Main_EventLoopSimReboot).
  - destruct (main_loop w _) as [r1|] eqn:E1; [|discriminate E].
    injection E as <-. cbn [val]. exact (IH _ _ E1).
  - injection E as <-. cbn [val]. eexists. split; [reflexivity|].
    pose proof (RunLoop_never_success c g r0 ER) as Hn.
    rewrite (RunLoop_val c g r0 ER) in Hn. rewrite maybe_SIGTERM_eq.
    destruct (c_sig_return c); simpl_res; [discriminate | exact Hn].
Qed.

(** Whenever the process ends, its exit status is one of 1 to 10: never
    0, because the dispatch loop is only left with exitCode set and
    nothing puts it back to ExitCode_Success, and never 11, the
    simulated-reboot code. *)
Theorem exit_status_range (w : list cycle_env) (r : res Z) :
  main w = Some r -> 1 <= val r <= 10.
Proof.
  rewrite main_eq. destruct (main_loop w initial_globals) as [r'|] eqn:E;
    [|discriminate]. intros H. injection H as <-. cbn [val].
  pose proof (main_loop_status w _ _ E) as H11.
  destruct (main_loop_status_nonzero w _ _ E) as (x & Hx & H0).
  rewrite Hx in *. destruct x; cbn in *; try lia; congruence.
Qed.

Lemma exit_status_range_witness :
  exists r, main [cycle_recv_failure] = Some r /\ 1 <= val r <= 10.
Proof.
  destruct (main [cycle_recv_failure]) as [r|] eqn:E;
    [|vm_compute in E; discriminate E].
  exists r. split; [reflexivity|]. exact (exit_status_range [cycle_recv_failure] r E).
Defined.

(** ** The numbering of the messages *)

Lemma sent_payloads_app (t1 t2 : trace) :
  sent_payloads (t1 ++ t2) = sent_payloads t1 ++ sent_payloads t2.
Proof. apply flat_map_app. Qed.

Lemma sent_payloads_no_send (t : trace) :
  calls send_call t = [] -> sent_payloads t = [].
Proof.
  induction t as [|e t IH]; [reflexivity|].
  cbn [calls filter]. fold (calls send_call t).
  destruct e as [fmt args|c]; cbn [event_in].
  - intros H. cbn [sent_payloads flat_map sent_payload app]. exact (IH H).
  - destruct c; cbn [send_call]; try discriminate;
      intros H; cbn [sent_payloads flat_map sent_payload app]; exact (IH H).
Qed.

Lemma sent_payloads_only (p : call -> bool) (t : trace) :
  (forall c, p c = true -> send_call c = false) -> only p t -> sent_payloads t = [].
Proof.
  intros Hp Ht. apply sent_payloads_no_send. now apply (only_calls_nil p).
Qed.

Lemma map_seq_from {A : Type} (f : nat -> A) (n : nat) :
  forall a, map f (seq a n) = map (fun i => f (a + i)%nat) (seq 0 n).
Proof.
  induction n as [|n IH]; intros a; [reflexivity|].
  cbn [seq map]. rewrite Nat.add_0_r. f_equal.
  rewrite (IH (S a)), <- (seq_shift n 0), map_map.
  apply map_ext. intros i. f_equal. lia.
Qed.

Lemma numbered_app (k : Z) (n1 n2 : nat) :
  numbered k (n1 + n2) =
  numbered k n1 ++ numbered ((k + Z.of_nat n1) mod 100) n2.
Proof.
  unfold numbered. rewrite seq_app, map_app. f_equal.
  cbn [Nat.add]. rewrite map_seq_from. apply map_ext. intros i.
  rewrite Zplus_mod_idemp_l. f_equal. f_equal. lia.
Qed.

Lemma numbering_quiet (g : globals) (t : trace) (g' : globals) :
  sent_payloads t = [] -> iter g' = iter g -> numbering g t g'.
Proof.
  intros Ht Hi Hg. rewrite Ht, Hi. cbn. rewrite Z.add_0_r, Z.mod_small by lia.
  split; reflexivity.
Qed.

Lemma numbering_app (g g1 g2 : globals) (t1 t2 : trace) :
  numbering g t1 g1 -> numbering g1 t2 g2 -> numbering g (t1 ++ t2) g2.
Proof.
  intros H1 H2 Hg. destruct (H1 Hg) as (P1 & I1).
  assert (Hg1 : 0 <= iter g1 < 100) by (rewrite I1; apply Z.mod_pos_bound; lia).
  destruct (H2 Hg1) as (P2 & I2).
  rewrite sent_payloads_app, length_app, numbered_app, <- I1, <- P1, <- P2.
  split; [reflexivity|].
  rewrite I2, I1, Zplus_mod_idemp_l, Nat2Z.inj_add. f_equal. lia.
Qed.

Lemma numbering_send (a : answer) (g g0 : globals) :
  iter g0 = iter g -> numbering g (tr (SendMessageToRTApp a g0)) (st (SendMessageToRTApp a g0)).
Proof.
  intros Hi Hg.
  assert (P : sent_payloads (tr (SendMessageToRTApp a g0)) = [txMessage_of (iter g)]).
  { rewrite SendMessageToRTApp_eq, Hi. cbv zeta. cbn [tr].
    destruct (ret_val a =? -1); reflexivity. }
  rewrite P, SendMessageToRTApp_iter, Hi. cbn [List.length numbered map seq Z.of_nat].
  unfold numbered. cbn [seq map Z.of_nat]. rewrite Z.add_0_r, Z.mod_small by lia.
  split; [reflexivity|]. apply next_iter_mod. exact Hg.
Qed.

Lemma numbering_run_action (a : action) (g : globals) :
  numbering g (tr (run_action a g)) (st (run_action a g)).
Proof.
  rewrite run_action_eq. destruct a as [c s|r buf|].
  - rewrite SendTimerEventHandler_eq. destruct (negb (ret_val c =? 0)).
    + apply numbering_quiet; reflexivity.
    + cbn [st tr].
      change (Call (ConsumeEventLoopTimerEvent (sendTimer g))
                :: tr (SendMessageToRTApp s (with_errno (ret_errno c) g)))
        with ([Call (ConsumeEventLoopTimerEvent (sendTimer g))]
                ++ tr (SendMessageToRTApp s (with_errno (ret_errno c) g))).
      apply (numbering_app g g); [apply numbering_quiet; reflexivity|].
      apply numbering_send. reflexivity.
  - apply numbering_quiet; [|apply SocketEventHandler_iter].
    rewrite SocketEventHandler_eq. cbv zeta.
    destruct (ret_val r =? -1); [reflexivity|]. cbn [tr].
    rewrite !sent_payloads_app.
    rewrite (sent_payloads_only (fun _ => false) (received_log buf _))
      by (try discriminate; apply received_log_only).
    destruct (MsgParseIsReboot (Some buf) (ret_val r)); reflexivity.
  - apply numbering_quiet; reflexivity.
Qed.

Lemma numbering_run_actions (l : list action) :
  forall g, numbering g (tr (run_actions l g)) (st (run_actions l g)).
Proof.
  induction l as [|a l IH]; intros g; [apply numbering_quiet; reflexivity|].
  rewrite run_actions_cons. cbn [st tr].
  apply (numbering_app g (st (run_action a g))); [apply numbering_run_action | apply IH].
Qed.

Lemma numbering_loop_body (d : dispatch) (g : globals) :
  numbering g (tr (loop_body d g)) (st (loop_body d g)).
Proof.
  intros Hg. pose proof (numbering_run_actions (d_actions d) g Hg) as (P & I).
  rewrite loop_body_iter. rewrite loop_body_eq. cbv zeta. cbn [tr].
  change (sent_payloads (Call (EventLoop_Run (eventLoop g) (-1) true)
                           :: tr (run_actions (d_actions d) g)))
    with (sent_payloads (tr (run_actions (d_actions d) g))).
  split; assumption.
Qed.

Lemma numbering_maybe_SIGTERM (b : bool) (g : globals) :
  numbering g (tr (maybe_SIGTERM b g)) (st (maybe_SIGTERM b g)).
Proof.
  apply numbering_quiet; [rewrite maybe_SIGTERM_tr; reflexivity|].
  apply maybe_SIGTERM_iter.
Qed.

Lemma numbering_dispatch_loop (ds : list dispatch) :
  forall g r, dispatch_loop ds g = Some r -> numbering g (tr r) (st r).
Proof.
  induction ds as [|d ds IH]; intros g r H; cbn [dispatch_loop] in H.
  - destruct (ExitCode_eqb (exitCode g) ExitCode_Success); [discriminate|].
    injection H as <-. apply numbering_quiet; reflexivity.
  - destruct (ExitCode_eqb (exitCode (st (maybe_SIGTERM (d_sigterm d) g)))
                           ExitCode_Success).
    + destruct (dispatch_loop ds (st (loop_body d (st (maybe_SIGTERM (d_sigterm d) g)))))
        as [r2|] eqn:E2; [|discriminate].
      injection H as <-. cbn [st tr].
      apply (numbering_app g (st (maybe_SIGTERM (d_sigterm d) g)));
        [apply numbering_maybe_SIGTERM|].
      apply (numbering_app _ (st (loop_body d (st (maybe_SIGTERM (d_sigterm d) g)))));
        [apply numbering_loop_body | exact (IH _ _ E2)].
    + injection H as <-. apply numbering_maybe_SIGTERM.
Qed.

Lemma numbering_RunLoop (c : cycle_env) (g : globals) (r : res ExitCode) :
  RunLoop c g = Some r -> numbering g (tr r) (st r).
Proof.
  intros H. destruct (RunLoop_Some c g r H) as (r1 & Hloop & ->). cbn [st tr].
  assert (D1 : forall x, init_call x = true -> send_call x = false)
    by (intros [] E; try discriminate E; reflexivity).
  assert (D2 : forall x, shutdown_call x = true -> send_call x = false)
    by (intros [] E; try discriminate E; reflexivity).
  assert (D3 : forall x, nanosleep_call x = true -> send_call x = false)
    by (intros [] E; try discriminate E; reflexivity).
  apply (numbering_app g (st (RunLoop_enter c g))).
  - apply numbering_quiet; [|apply RunLoop_enter_iter].
    apply (sent_payloads_only init_call); [exact D1 | apply RunLoop_enter_only].
  - apply (numbering_app _ (st r1)); [exact (numbering_dispatch_loop _ _ _ Hloop)|].
    apply numbering_quiet; [|apply RunLoop_leave_iter].
    destruct (RunLoop_leave_split c (st r1)) as (t & Ht & Hsleep & _).
    rewrite Ht, sent_payloads_app.
    rewrite (sent_payloads_only nanosleep_call t D3 Hsleep), app_nil_r.
    apply sent_payloads_no_send. now apply CloseHandlers_other_calls.
Qed.

Lemma numbering_main_loop (w : list cycle_env) :
  forall g r, main_loop w g = Some r -> numbering g (tr r) (st r).
Proof.
  induction w as [|c w IH]; intros g r E; [discriminate E|].
  destruct (RunLoop c g) as [r0|] eqn:ER;
    [|cbn [main_loop] in E; rewrite ER in E; discriminate E].
  rewrite (main_loop_cons c w g r0 ER) in E. cbv zeta in E.
  pose proof (numbering_RunLoop c g r0 ER) as N0.
  destruct (ExitCode_eqb (val r0) ExitCode_Main_EventLoopSimReboot).
  - destruct (main_loop w _) as [r1|] eqn:E1; [|discriminate E].
    injection E as <-. cbn [st tr].
    apply (numbering_app g (st r0)); [exact N0|].
    apply (numbering_app _ (st (maybe_SIGTERM (c_sig_return c) (st r0))) _ []);
      [|exact (IH _ _ E1)].
    apply numbering_quiet; [reflexivity | apply maybe_SIGTERM_iter].
  - injection E as <-. cbn [st tr].
    apply (numbering_app g (st r0)); [exact N0|].
    apply numbering_quiet; [reflexivity | apply maybe_SIGTERM_iter].
Qed.

(** The messages of a whole process are numbered consecutively from 00,
    going round after 99, across all its cycles: a simulated reboot does
    not restart the count; and the counter always equals the number of
    messages handed to send so far, modulo 100. *)
Theorem messages_are_numbered_consecutively (w : list cycle_env) (r : res Z) :
  main w = Some r ->
  sent_payloads (tr r) = numbered 0 (List.length (sent_payloads (tr r)))
  /\ iter (st r) = Z.of_nat (List.length (sent_payloads (tr r))) mod 100.
Proof.
  rewrite main_eq. destruct (main_loop w initial_globals) as [r'|] eqn:E;
    [|discriminate]. intros H. injection H as <-. cbn [st tr].
  destruct (numbering_main_loop w _ _ E) as (P & I); [cbn; lia|].
  change (sent_payloads
            ([Log "High-level intercore comms application
" [];
              Log "Sends data to, and receives data from a real-time capable application.
" [];
              Call sigaction_SIGTERM] ++ tr r'))
    with (sent_payloads (tr r')).
  split; [exact P | exact I].
Qed.

Lemma messages_are_numbered_consecutively_witness :
  exists r,
    main world_reboot_then_sigterm = Some r
    /\ sent_payloads (tr r) = ["hl-app-to-rt-app-adding00"; "hl-app-to-rt-app-adding01"]
    /\ iter (st r) = 2.
Proof.
  destruct (main world_reboot_then_sigterm) as [r|] eqn:E;
    [|vm_compute in E; discriminate E].
  destruct (messages_are_numbered_consecutively world_reboot_then_sigterm r E) as (P & I).
  assert (L : List.length (sent_payloads (tr r)) = 2%nat)
    by (vm_compute in E; injection E as <-; reflexivity).
  exists r. split; [reflexivity|]. rewrite P, I, L. split; reflexivity.
Defined.

(** ** Resources of a run *)

Lemma RunLoop_enter_success_handles (c : cycle_env) (g : globals) :
  exitCode (st (RunLoop_enter c g)) = ExitCode_Success ->
  handles (st (RunLoop_enter c g)) =
    (ret_val (ie_Connect (c_init c)), ret_val (ie_EventLoop_Create (c_init c)),
     ret_val (ie_CreateTimer (c_init c)), ret_val (ie_RegisterIo (c_init c)))
  /\ calls init_call (tr (RunLoop_enter c g)) = init_calls_of (c_init c).
Proof.
  rewrite RunLoop_enter_eq, InitHandlers_eq. cbv zeta. unfold init_calls_of.
  split_ifs; simpl_res; intros H; try discriminate H; split; reflexivity.
Qed.

Lemma RunLoop_enter_code (c : cycle_env) (g : globals) :
  exitCode (st (RunLoop_enter c g)) <> ExitCode_Main_EventLoopSimReboot
  /\ exitCode (st (RunLoop_enter c g)) <> ExitCode_TermHandler_SigTerm.
Proof.
  rewrite RunLoop_enter_eq, InitHandlers_eq. cbv zeta.
  split_ifs; simpl_res; split; discriminate.
Qed.

(** A run whose initialisation succeeded makes the five initialisation
    calls once and then, whatever ends its loop, releases exactly what
    those calls returned: the timer, the registration on the event loop,
    the event loop, and the descriptor (when it is not negative); the
    variables still hold the released handles when the run returns. *)
Theorem run_releases_what_it_acquired (c : cycle_env) (g : globals) (r : res ExitCode) :
  RunLoop c g = Some r ->
  exitCode (st (RunLoop_enter c g)) = ExitCode_Success ->
  calls init_call (tr r) = init_calls_of (c_init c)
  /\ calls shutdown_call (tr r) =
     [Call (DisposeEventLoopTimer (ret_val (ie_CreateTimer (c_init c))));
      Call (EventLoop_UnregisterIo (ret_val (ie_EventLoop_Create (c_init c)))
                                   (ret_val (ie_RegisterIo (c_init c))));
      Call (EventLoop_Close (ret_val (ie_EventLoop_Create (c_init c))))]
     ++ (if 0 <=? ret_val (ie_Connect (c_init c))
         then [Call (close (ret_val (ie_Connect (c_init c))))] else [])
  /\ handles (st r) =
     (ret_val (ie_Connect (c_init c)), ret_val (ie_EventLoop_Create (c_init c)),
      ret_val (ie_CreateTimer (c_init c)), ret_val (ie_RegisterIo (c_init c))).
Proof.
  intros H Hinit.
  destruct (RunLoop_enter_success_handles c g Hinit) as (Hh & Hc).
  destruct (RunLoop_calls c g r H) as (r1 & Hloop & Hh1 & _ & Hsh & _).
  destruct (dispatch_loop_exit _ _ _ Hloop) as (Hh2 & Honly & _).
  assert (HH : handles (st r) = (ret_val (ie_Connect (c_init c)),
                                 ret_val (ie_EventLoop_Create (c_init c)),
                                 ret_val (ie_CreateTimer (c_init c)),
                                 ret_val (ie_RegisterIo (c_init c))))
    by (rewrite Hh1, Hh2; exact Hh).
  split; [|split; [|exact HH]].
  - destruct (RunLoop_Some c g r H) as (r1' & Hloop' & ->).
    assert (r1' = r1) by congruence. subst r1'. cbn [tr].
    destruct (RunLoop_leave_split c (st r1)) as (t & Ht & Hsleep & _).
    rewrite !calls_app, Hc, Ht, calls_app.
    rewrite (only_calls_nil loop_call init_call (tr r1)),
      (only_calls_nil nanosleep_call init_call t),
      (CloseHandlers_other_calls init_call)
      by (try assumption; intros [] E; try discriminate E; reflexivity).
    rewrite !app_nil_r. reflexivity.
  - rewrite Hsh. unfold shutdown_calls_of, handles in *.
    injection HH as -> -> -> ->. reflexivity.
Qed.

Lemma run_releases_what_it_acquired_witness :
  exists r,
    RunLoop cycle_reboot initial_globals = Some r
    /\ exitCode (st (RunLoop_enter cycle_reboot initial_globals)) = ExitCode_Success
    /\ calls shutdown_call (tr r) =
       [Call (DisposeEventLoopTimer 200); Call (EventLoop_UnregisterIo 100 300);
        Call (EventLoop_Close 100); Call (close 3)]
    /\ handles (st r) = (3, 100, 200, 300).
Proof.
  destruct (RunLoop cycle_reboot initial_globals) as [r|] eqn:E;
    [|vm_compute in E; discriminate E].
  destruct (run_releases_what_it_acquired cycle_reboot initial_globals r E eq_refl)
    as (_ & H2 & H3).
  exists r. split; [reflexivity|]. split; [reflexivity|]. split; [exact H2 | exact H3].
Defined.

Lemma on_handles_only (p : call -> bool) (h : Z * Z * Z * Z) (t : trace) :
  (forall c, p c = true -> loop_call c = false) -> only p t ->
  Forall (on_handles h) t.
Proof.
  intros Hp Ht. induction Ht as [|e t He _ IH]; constructor; [|exact IH].
  destruct e as [fmt args|c]; [exact I|].
  specialize (Hp c He). destruct c; try discriminate Hp; exact I.
Qed.

Lemma on_handles_received_log (h : Z * Z * Z * Z) (n : nat) :
  forall buf, Forall (on_handles h) (received_log buf n).
Proof.
  induction n as [|n IH]; intros buf; cbn [received_log]; constructor;
    [exact I | apply IH].
Qed.

Lemma on_handles_run_action (a : action) (g : globals) :
  Forall (on_handles (handles g)) (tr (run_action a g)).
Proof.
  rewrite run_action_eq. destruct a as [c s|r buf|].
  - rewrite SendTimerEventHandler_eq, SendMessageToRTApp_eq. cbv zeta.
    destruct (negb (ret_val c =? 0)); cbn [tr]; simpl_res.
    + repeat constructor.
    + destruct (ret_val s =? -1); repeat constructor.
  - rewrite SocketEventHandler_eq. cbv zeta.
    destruct (ret_val r =? -1); cbn [tr]; [repeat constructor|].
    apply Forall_app. split; [repeat constructor|].
    apply Forall_app. split; [apply on_handles_received_log|].
    destruct (MsgParseIsReboot (Some buf) (ret_val r)); repeat constructor.
  - constructor.
Qed.

Lemma on_handles_run_actions (l : list action) :
  forall g, Forall (on_handles (handles g)) (tr (run_actions l g)).
Proof.
  induction l as [|a l IH]; intros g; [constructor|].
  rewrite run_actions_cons. cbn [tr]. apply Forall_app. split.
  - apply on_handles_run_action.
  - rewrite <- (run_action_handles a g). apply IH.
Qed.

Lemma on_handles_dispatch_loop (ds : list dispatch) :
  forall g r, dispatch_loop ds g = Some r -> Forall (on_handles (handles g)) (tr r).
Proof.
  induction ds as [|d ds IH]; intros g r H; cbn [dispatch_loop] in H.
  - destruct (ExitCode_eqb (exitCode g) ExitCode_Success); [discriminate|].
    injection H as <-. constructor.
  - destruct (ExitCode_eqb (exitCode (st (maybe_SIGTERM (d_sigterm d) g)))
                           ExitCode_Success).
    + destruct (dispatch_loop ds (st (loop_body d (st (maybe_SIGTERM (d_sigterm d) g)))))
        as [r2|] eqn:E2; [|discriminate].
      injection H as <-. cbn [tr]. rewrite maybe_SIGTERM_tr. cbn [app].
      apply Forall_app. split.
      * rewrite loop_body_eq. cbv zeta. cbn [tr].
        rewrite <- (maybe_SIGTERM_handles (d_sigterm d) g).
        constructor; [reflexivity | apply on_handles_run_actions].
      * rewrite <- (maybe_SIGTERM_handles (d_sigterm d) g),
          <- (loop_body_handles d (st (maybe_SIGTERM (d_sigterm d) g))).
        exact (IH _ _ E2).
    + injection H as <-. rewrite maybe_SIGTERM_tr. constructor.
Qed.

(** All traffic of a run goes over what that run opened: every send and
    recv in its trace is on the descriptor that its Application_Connect
    returned, every EventLoop_Run on the event loop that its
    EventLoop_Create returned, and every consumed timer event on the timer
    that its CreateEventLoopPeriodicTimer returned, never on a handle left
    by an earlier cycle. *)
Theorem run_uses_its_own_handles (c : cycle_env) (g : globals) (r : res ExitCode) :
  RunLoop c g = Some r ->
  Forall (on_handles (ret_val (ie_Connect (c_init c)),
                      ret_val (ie_EventLoop_Create (c_init c)),
                      ret_val (ie_CreateTimer (c_init c)),
                      ret_val (ie_RegisterIo (c_init c))))
         (tr r).
Proof.
  intros H. destruct (RunLoop_Some c g r H) as (r1 & Hloop & ->). cbn [tr].
  apply Forall_app. split; [|apply Forall_app; split].
  - apply (on_handles_only init_call); [|apply RunLoop_enter_only].
    intros [] E; try discriminate E; reflexivity.
  - destruct (ExitCode_eqb (exitCode (st (RunLoop_enter c g))) ExitCode_Success) eqn:E.
    + apply ExitCode_eqb_eq in E.
      rewrite <- (proj1 (RunLoop_enter_success_handles c g E)).
      exact (on_handles_dispatch_loop _ _ _ Hloop).
    + apply ExitCode_eqb_neq in E. rewrite (dispatch_loop_stopped_eq _ _ E) in Hloop.
      injection Hloop as <-. rewrite maybe_SIGTERM_tr. constructor.
  - destruct (RunLoop_leave_split c (st r1)) as (t & Ht & Hsleep & _).
    rewrite Ht. apply Forall_app. split.
    + rewrite CloseHandlers_eq. simpl_res.
      destruct (0 <=? sockFd (st r1)); [|repeat constructor].
      destruct (negb (ret_val (c_close c) =? 0)); repeat constructor.
    + apply (on_handles_only nanosleep_call); [|exact Hsleep].
      intros [] E; try discriminate E; reflexivity.
Qed.

Lemma run_uses_its_own_handles_witness :
  exists r2,
    RunLoop (cycle (init_ok 1)
                   [dispatched [Timer_fires (ok 0) (ok 25)]; dispatched [Sigterm]])
            (with_sockFd 3 initial_globals) = Some r2
    /\ Forall (on_handles (4, 101, 201, 301)) (tr r2).
Proof.
  destruct (RunLoop (cycle (init_ok 1)
                           [dispatched [Timer_fires (ok 0) (ok 25)]; dispatched [Sigterm]])
                    (with_sockFd 3 initial_globals)) as [r2|] eqn:E;
    [|vm_compute in E; discriminate E].
  exists r2. split; [reflexivity|].
  exact (run_uses_its_own_handles _ _ r2 E).
Defined.

(** ** Failed initialisation *)

(** A run whose initialisation fails, at whichever step, never enters the
    dispatcher and never pauses: it returns, whatever the script of the
    loop holds, after the shutdown calls alone, with the code of the
    failed step (or the termination code when SIGTERM arrives meanwhile),
    and main does not start another run. *)
Theorem failed_init_ends_the_process
        (c : cycle_env) (w : list cycle_env) (g : globals) :
  exitCode (st (RunLoop_enter c g)) <> ExitCode_Success ->
  exists r r',
    RunLoop c g = Some r
    /\ calls loop_call (tr r) = []
    /\ calls nanosleep_call (tr r) = []
    /\ calls shutdown_call (tr r) = shutdown_calls_of (st (RunLoop_enter c g))
    /\ (val r = exitCode (st (RunLoop_enter c g))
        \/ val r = ExitCode_TermHandler_SigTerm)
    /\ main_loop (c :: w) g = Some r'
    /\ tr r' = tr r ++ [Log "Application exiting.\n" []]
    /\ (val r' = ExitCode_value (exitCode (st (RunLoop_enter c g)))
        \/ val r' = ExitCode_value ExitCode_TermHandler_SigTerm).
Proof.
  intros Hf.
  pose proof (dispatch_loop_stopped_eq (c_loop c) _ Hf) as Hloop.
  pose proof (RunLoop_of_loop c g _ Hloop) as HR.
  remember (maybe_SIGTERM (next_sigterm (c_loop c)) (st (RunLoop_enter c g)))
    as r1 eqn:Er1.
  remember (mkRes (val (RunLoop_leave c (st r1))) (st (RunLoop_leave c (st r1)))
                  (tr (RunLoop_enter c g) ++ tr r1 ++ tr (RunLoop_leave c (st r1))))
    as r eqn:Er.
  destruct (RunLoop_enter_code c g) as (Hn11 & Hn1).
  assert (He1 : exitCode (st r1) = exitCode (st (RunLoop_enter c g))
                \/ exitCode (st r1) = ExitCode_TermHandler_SigTerm).
  { rewrite Er1, maybe_SIGTERM_eq.
    destruct (next_sigterm (c_loop c)); simpl_res; auto. }
  assert (Hne : exitCode (st r1) <> ExitCode_Main_EventLoopSimReboot)
    by (destruct He1 as [E|E]; rewrite E; [exact Hn11 | discriminate]).
  assert (Hv : val r = exitCode (st (RunLoop_enter c g))
               \/ val r = ExitCode_TermHandler_SigTerm).
  { rewrite Er. cbn [val].
    destruct (RunLoop_leave_no_reboot c (st r1) Hne) as [E|E]; [|right; exact E].
    rewrite E. exact He1. }
  assert (Hvne : val r <> ExitCode_Main_EventLoopSimReboot)
    by (destruct Hv as [E|E]; rewrite E; [exact Hn11 | discriminate]).
  destruct (RunLoop_leave_split c (st r1)) as (t & Ht & _ & _ & Hquiet).
  specialize (Hquiet Hne). subst t. rewrite app_nil_r in Ht.
  assert (Htr : tr r = tr (RunLoop_enter c g) ++ tr (CloseHandlers (c_close c) (st r1))).
  { rewrite Er. cbn [tr]. rewrite Ht, Er1, maybe_SIGTERM_tr. reflexivity. }
  assert (D1 : forall x, init_call x = true -> loop_call x = false)
    by (intros [] E; try discriminate E; reflexivity).
  assert (D2 : forall x, shutdown_call x = true -> loop_call x = false)
    by (intros [] E; try discriminate E; reflexivity).
  assert (D3 : forall x, init_call x = true -> nanosleep_call x = false)
    by (intros [] E; try discriminate E; reflexivity).
  assert (D4 : forall x, shutdown_call x = true -> nanosleep_call x = false)
    by (intros [] E; try discriminate E; reflexivity).
  assert (D5 : forall x, init_call x = true -> shutdown_call x = false)
    by (intros [] E; try discriminate E; reflexivity).
  pose proof (RunLoop_enter_only c g) as Hinit.
  rewrite (main_loop_cons c w g r HR). cbv zeta.
  apply ExitCode_eqb_neq in Hvne. rewrite Hvne.
  exists r.
  exists (mkRes (ExitCode_value (exitCode (st (maybe_SIGTERM (c_sig_return c) (st r)))))
                (st (maybe_SIGTERM (c_sig_return c) (st r)))
                (tr r ++ [Log "Application exiting.\n" []])).
  split; [exact HR|]. cbn [tr val].
  rewrite Htr, !calls_app.
  rewrite (only_calls_nil _ _ _ D1 Hinit), (only_calls_nil _ _ _ D3 Hinit),
    (only_calls_nil _ _ _ D5 Hinit), (CloseHandlers_other_calls _ _ _ D2),
    (CloseHandlers_other_calls _ _ _ D4), CloseHandlers_calls.
  cbn [app]. do 2 (split; [reflexivity|]).
  split; [apply shutdown_calls_of_handles; rewrite Er1; apply maybe_SIGTERM_handles|].
  split; [exact Hv|]. split; [reflexivity|].
  split; [reflexivity|].
  rewrite maybe_SIGTERM_eq.
  destruct (c_sig_return c); simpl_res; [right; reflexivity|].
  rewrite <- (RunLoop_val c g r HR). destruct Hv as [E|E]; rewrite E; auto.
Qed.

Lemma failed_init_ends_the_process_witness :
  exitCode (st (RunLoop_enter (cycle init_no_loop [dispatched [Sigterm]])
                              initial_globals)) <> ExitCode_Success
  /\ exists r',
      main_loop [cycle init_no_loop [dispatched [Sigterm]]; cycle_reboot] initial_globals
        = Some r'
      /\ val r' = 5.
Proof.
  assert (H : exitCode (st (RunLoop_enter (cycle init_no_loop [dispatched [Sigterm]])
                                          initial_globals)) <> ExitCode_Success)
    by discriminate.
  split; [exact H|].
  destruct (failed_init_ends_the_process (cycle init_no_loop [dispatched [Sigterm]])
              [cycle_reboot] initial_globals H) as (r & r' & _ & _ & _ & _ & _ & Hm & _ & _).
  exists r'. split; [exact Hm|].
  vm_compute in Hm. injection Hm as <-. reflexivity.
Defined.

(** When the event loop cannot be created the shutdown step still runs,
    on a null event loop and on whatever the timer, registration and
    descriptor variables held before the run: handles of an earlier cycle
    when there was one, since shutdown never resets them. *)
Theorem loop_creation_failure_shuts_down_entry_handles (c : cycle_env) (g : globals) :
  ret_val (ie_EventLoop_Create (c_init c)) = NULL ->
  exists r,
    RunLoop c g = Some r
    /\ calls init_call (tr r) = [Call EventLoop_Create]
    /\ calls shutdown_call (tr r) =
       [Call (DisposeEventLoopTimer (sendTimer g));
        Call (EventLoop_UnregisterIo NULL (socketEventReg g));
        Call (EventLoop_Close NULL)]
       ++ (if 0 <=? sockFd g then [Call (close (sockFd g))] else [])
    /\ handles (st r) = (sockFd g, NULL, sendTimer g, socketEventReg g).
Proof.
  intros Hc.
  assert (E : RunLoop_enter c g =
              mkRes tt (with_exitCode ExitCode_Init_EventLoop
                          (with_eventLoop NULL
                             (with_errno (ret_errno (ie_EventLoop_Create (c_init c)))
                                (st (maybe_SIGTERM (c_sig_init c) g)))))
                    [Log "Running main loop.\n" []; Call EventLoop_Create;
                     Log "Could not create event loop.\n" []]).
  { rewrite RunLoop_enter_eq, InitHandlers_eq. cbv zeta. rewrite Hc. reflexivity. }
  assert (Hf : exitCode (st (RunLoop_enter c g)) <> ExitCode_Success)
    by (rewrite E; discriminate).
  pose proof (dispatch_loop_stopped_eq (c_loop c) _ Hf) as Hloop.
  pose proof (RunLoop_of_loop c g _ Hloop) as HR.
  remember (maybe_SIGTERM (next_sigterm (c_loop c)) (st (RunLoop_enter c g)))
    as r1 eqn:Er1.
  remember (mkRes (val (RunLoop_leave c (st r1))) (st (RunLoop_leave c (st r1)))
                  (tr (RunLoop_enter c g) ++ tr r1 ++ tr (RunLoop_leave c (st r1))))
    as r eqn:Er.
  exists r. split; [exact HR|].
  destruct (RunLoop_calls c g r HR) as (r1' & Hr1 & Hh & _ & Hsh & _).
  assert (r1' = r1) by congruence. subst r1'.
  assert (HH : handles (st r) = (sockFd g, NULL, sendTimer g, socketEventReg g)).
  { rewrite Hh, Er1, maybe_SIGTERM_handles, E. cbn [st].
    rewrite handles_with_exitCode. unfold handles. simpl_res.
    pose proof (maybe_SIGTERM_handles (c_sig_init c) g) as Hg. unfold handles in Hg.
    injection Hg as -> _ -> ->. reflexivity. }
  split; [|split; [|exact HH]].
  - rewrite Er. cbn [tr]. rewrite Er1 at 1. rewrite maybe_SIGTERM_tr.
    destruct (RunLoop_leave_split c (st r1)) as (t & Ht & Hsleep & _).
    rewrite Ht, E, !calls_app.
    rewrite (only_calls_nil nanosleep_call init_call t),
      (CloseHandlers_other_calls init_call)
      by (try assumption; intros [] X; try discriminate X; reflexivity).
    reflexivity.
  - rewrite Hsh. unfold shutdown_calls_of, handles in *.
    injection HH as -> -> -> ->. reflexivity.
Qed.

Lemma loop_creation_failure_shuts_down_entry_handles_witness :
  ret_val (ie_EventLoop_Create (c_init (cycle init_no_loop []))) = NULL
  /\ exists r,
      RunLoop (cycle init_no_loop [])
              (with_sockFd 3 (with_sendTimer 200 (with_socketEventReg 300 initial_globals)))
        = Some r
      /\ calls shutdown_call (tr r) =
         [Call (DisposeEventLoopTimer 200); Call (EventLoop_UnregisterIo NULL 300);
          Call (EventLoop_Close NULL); Call (close 3)].
Proof.
  split; [reflexivity|].
  destruct (loop_creation_failure_shuts_down_entry_handles
              (cycle init_no_loop [])
              (with_sockFd 3 (with_sendTimer 200 (with_socketEventReg 300 initial_globals)))
              eq_refl) as (r & Hr & _ & Hs & _).
  exists r. split; [exact Hr | exact Hs].
Defined.

(** ** SIGTERM at the edges of a run *)

(** The exit code with which a run enters its loop is the result of
    InitHandlers and depends on nothing but the answers to its calls:
    RunLoop assigns it over whatever exitCode held, so a SIGTERM that
    arrived while InitHandlers ran is forgotten, and after a successful
    initialisation with no event to follow the process stays in the
    dispatcher, whether or not the signal was sent. *)
Theorem sigterm_during_init_is_overwritten (c c' : cycle_env) (g g' : globals) :
  c_init c = c_init c' ->
  exitCode (st (RunLoop_enter c g)) = exitCode (st (RunLoop_enter c' g'))
  /\ (exitCode (st (RunLoop_enter c' g')) = ExitCode_Success ->
      c_loop c = [] -> RunLoop c g = None).
Proof.
  intros Hi.
  assert (E : exitCode (st (RunLoop_enter c g)) = exitCode (st (RunLoop_enter c' g'))).
  { rewrite !RunLoop_enter_eq, !InitHandlers_eq, Hi. cbv zeta. split_ifs; reflexivity. }
  split; [exact E|]. intros Hs Hl. unfold RunLoop. rewrite Hl. cbn [dispatch_loop].
  rewrite E, Hs. reflexivity.
Qed.

Lemma sigterm_during_init_is_overwritten_witness :
  c_init cycle_sigterm_during_init = c_init cycle_reboot
  /\ c_sig_init cycle_sigterm_during_init = true
  /\ exitCode (st (RunLoop_enter cycle_reboot initial_globals)) = ExitCode_Success
  /\ exitCode (st (RunLoop_enter cycle_sigterm_during_init initial_globals))
     = ExitCode_Success
  /\ RunLoop cycle_sigterm_during_init initial_globals = None.
Proof.
  destruct (sigterm_during_init_is_overwritten
              cycle_sigterm_during_init cycle_reboot initial_globals initial_globals
              eq_refl) as (H1 & H2).
  split; [reflexivity|]. split; [reflexivity|]. split; [reflexivity|].
  split; [rewrite H1; reflexivity|]. exact (H2 eq_refl eq_refl).
Defined.

Lemma RunLoop_nanosleep_calls (c : cycle_env) (g : globals) (r : res ExitCode) :
  RunLoop c g = Some r ->
  exists r1,
    dispatch_loop (c_loop c) (st (RunLoop_enter c g)) = Some r1
    /\ calls nanosleep_call (tr r) = calls nanosleep_call (tr (RunLoop_leave c (st r1)))
    /\ val r = val (RunLoop_leave c (st r1)).
Proof.
  intros H. destruct (RunLoop_Some c g r H) as (r1 & Hloop & ->). cbn [tr val].
  exists r1. split; [exact Hloop|]. split; [|reflexivity].
  destruct (dispatch_loop_exit _ _ _ Hloop) as (_ & Honly & _).
  rewrite !calls_app.
  rewrite (only_calls_nil init_call nanosleep_call (tr (RunLoop_enter c g))),
    (only_calls_nil loop_call nanosleep_call (tr r1))
    by (try assumption; try apply RunLoop_enter_only;
        intros [] X; try discriminate X; reflexivity).
  reflexivity.
Qed.

(** When the sentinel has ended the loop and SIGTERM arrives before the
    run returns, there is no restart: the run returns the termination
    code and the process exits with status 1; the pause is skipped when
    the signal arrives during shutdown, and made in full when it arrives
    during the pause. *)
Theorem sigterm_while_leaving_cancels_restart
        (c : cycle_env) (w : list cycle_env) (g : globals) (r1 : res unit) :
  dispatch_loop (c_loop c) (st (RunLoop_enter c g)) = Some r1 ->
  exitCode (st r1) = ExitCode_Main_EventLoopSimReboot ->
  c_sig_close c = true \/ c_sig_sleep c = true ->
  exists r r',
    RunLoop c g = Some r
    /\ val r = ExitCode_TermHandler_SigTerm
    /\ (c_sig_close c = true -> calls nanosleep_call (tr r) = [])
    /\ (c_sig_close c = false -> calls nanosleep_call (tr r) = [Call (nanosleep 10 0)])
    /\ main_loop (c :: w) g = Some r'
    /\ val r' = ExitCode_value ExitCode_TermHandler_SigTerm
    /\ tr r' = tr r ++ [Log "Application exiting.\n" []].
Proof.
  intros Hloop He Hsig. pose proof (RunLoop_of_loop c g r1 Hloop) as HR.
  remember (mkRes (val (RunLoop_leave c (st r1))) (st (RunLoop_leave c (st r1)))
                  (tr (RunLoop_enter c g) ++ tr r1 ++ tr (RunLoop_leave c (st r1))))
    as r eqn:Er.
  destruct (RunLoop_nanosleep_calls c g r HR) as (r1' & Hr1 & Hn & Hv).
  assert (r1' = r1) by congruence. subst r1'.
  pose proof (CloseHandlers_exitCode (c_close c) (st r1)) as Hc.
  pose proof (CloseHandlers_other_calls nanosleep_call (c_close c) (st r1)) as Hq.
  assert (Hq' : calls nanosleep_call (tr (CloseHandlers (c_close c) (st r1))) = [])
    by (apply Hq; intros [] X; try discriminate X; reflexivity).
  assert (L : val (RunLoop_leave c (st r1)) = ExitCode_TermHandler_SigTerm
              /\ (c_sig_close c = true ->
                  calls nanosleep_call (tr (RunLoop_leave c (st r1))) = [])
              /\ (c_sig_close c = false ->
                  calls nanosleep_call (tr (RunLoop_leave c (st r1)))
                  = [Call (nanosleep 10 0)])).
  { rewrite RunLoop_leave_eq. cbv zeta. rewrite !maybe_SIGTERM_eq.
    destruct (c_sig_close c) eqn:E1; simpl_res.
    - change (ExitCode_eqb ExitCode_TermHandler_SigTerm ExitCode_Main_EventLoopSimReboot)
        with false. cbv iota. cbn [val tr].
      split; [destruct (c_sig_sleep c); reflexivity|].
      split; [intros _; exact Hq' | discriminate].
    - rewrite Hc, He.
      change (ExitCode_eqb ExitCode_Main_EventLoopSimReboot
                           ExitCode_Main_EventLoopSimReboot) with true. cbv iota.
      destruct Hsig as [X|X]; [discriminate X|]. rewrite X. simpl_res.
      split; [reflexivity|]. split; [discriminate|]. intros _.
      rewrite !calls_app, Hq'.
      destruct (ret_val (c_sleep c) =? -1); reflexivity. }
  destruct L as (L1 & L2 & L3).
  assert (Hvr : val r = ExitCode_TermHandler_SigTerm) by (rewrite Hv; exact L1).
  exists r.
  exists (mkRes (ExitCode_value (exitCode (st (maybe_SIGTERM (c_sig_return c) (st r)))))
                (st (maybe_SIGTERM (c_sig_return c) (st r)))
                (tr r ++ [Log "Application exiting.\n" []])).
  split; [exact HR|]. split; [exact Hvr|].
  split; [intros X; rewrite Hn; exact (L2 X)|].
  split; [intros X; rewrite Hn; exact (L3 X)|].
  split.
  - rewrite (main_loop_cons c w g r HR). cbv zeta. rewrite Hvr. reflexivity.
  - cbn [val tr]. split; [|reflexivity].
    rewrite maybe_SIGTERM_eq. destruct (c_sig_return c); simpl_res; [reflexivity|].
    rewrite <- (RunLoop_val c g r HR), Hvr. reflexivity.
Qed.

Lemma sigterm_while_leaving_cancels_restart_witness :
  exists r1 r',
    dispatch_loop (c_loop cycle_reboot_sigterm_in_pause)
                  (st (RunLoop_enter cycle_reboot_sigterm_in_pause initial_globals))
      = Some r1
    /\ exitCode (st r1) = ExitCode_Main_EventLoopSimReboot
    /\ c_sig_sleep cycle_reboot_sigterm_in_pause = true
    /\ main_loop [cycle_reboot_sigterm_in_pause; cycle_reboot] initial_globals = Some r'
    /\ val r' = 1.
Proof.
  destruct (dispatch_loop (c_loop cycle_reboot_sigterm_in_pause)
              (st (RunLoop_enter cycle_reboot_sigterm_in_pause initial_globals)))
    as [r1|] eqn:E; [|vm_compute in E; discriminate E].
  assert (He : exitCode (st r1) = ExitCode_Main_EventLoopSimReboot)
    by (vm_compute in E; injection E as <-; reflexivity).
  destruct (sigterm_while_leaving_cancels_restart
              cycle_reboot_sigterm_in_pause [cycle_reboot] initial_globals r1
              E He (or_intror eq_refl))
    as (r & r' & _ & _ & _ & _ & Hm & Hv & _).
  exists r1, r'. split; [reflexivity|]. split; [exact He|]. split; [reflexivity|].
  split; [exact Hm | exact Hv].
Defined.

(** ** The classifier on eight bytes *)

Lemma MsgParseIsReboot_8_witness :
  (8 <= String.length "reboot!!-and-what-the-buffer-held")%nat
  /\ MsgParseIsReboot (Some "reboot!!-and-what-the-buffer-held") 8 = true
  /\ (8 <= String.length "reboot!?")%nat
  /\ MsgParseIsReboot (Some "reboot!?") 8 <> true.
Proof.
  assert (H : (8 <= String.length "reboot!!-and-what-the-buffer-held")%nat) by (cbn; lia).
  assert (H' : (8 <= String.length "reboot!?")%nat) by (cbn; lia).
  split; [exact H|].
  split; [exact (proj2 (MsgParseIsReboot_8 _ H) eq_refl)|].
  split; [exact H'|].
  intros X. apply (proj1 (MsgParseIsReboot_8 _ H')) in X. discriminate X.
Defined.

(** ** Runs of a process *)

Lemma calls_within (p q : call -> bool) (t : trace) :
  (forall c, q c = true -> p c = true) -> calls q (calls p t) = calls q t.
Proof.
  intros H. induction t as [|e t IH]; [reflexivity|].
  cbn [calls filter]. fold (calls p t). fold (calls q t).
  destruct e as [fmt args|c]; cbn [event_in]; [exact IH|].
  destruct (q c) eqn:Eq.
  - rewrite (H c Eq). cbn [calls filter event_in]. rewrite Eq.
    fold (calls q (calls p t)). now rewrite IH.
  - destruct (p c); [|exact IH].
    cbn [calls filter event_in]. rewrite Eq. exact IH.
Qed.

Lemma RunLoop_closes_once (c : cycle_env) (g : globals) (r : res ExitCode) :
  RunLoop c g = Some r ->
  List.length (calls create_call (tr r)) = 1%nat
  /\ List.length (calls loop_close_call (tr r)) = 1%nat
  /\ (val r = ExitCode_Main_EventLoopSimReboot ->
      (1 <= List.length (calls nanosleep_call (tr r)))%nat).
Proof.
  intros H. destruct (RunLoop_calls c g r H) as (r1 & _ & _ & _ & Hsh & Hcr & _ & Hn).
  split; [rewrite Hcr; reflexivity|]. split.
  - rewrite <- (calls_within shutdown_call loop_close_call)
      by (intros [] X; try discriminate X; reflexivity).
    rewrite Hsh. unfold shutdown_calls_of.
    destruct (0 <=? sockFd (st r)); reflexivity.
  - intros Hv. destruct (Hn Hv) as (Hin & _).
    assert (Hin' : In (Call (nanosleep 10 0)) (calls nanosleep_call (tr r)))
      by (apply filter_In; split; [exact Hin | reflexivity]).
    destruct (calls nanosleep_call (tr r)); [destruct Hin' | cbn; lia].
Qed.

Lemma main_loop_balance (w : list cycle_env) :
  forall g r, main_loop w g = Some r ->
    List.length (calls create_call (tr r)) = List.length (calls loop_close_call (tr r))
    /\ (1 <= List.length (calls create_call (tr r)))%nat
    /\ (List.length (calls create_call (tr r))
        <= 1 + List.length (calls nanosleep_call (tr r)))%nat.
Proof.
  induction w as [|c w IH]; intros g r E; [discriminate E|].
  destruct (RunLoop c g) as [r0|] eqn:ER;
    [|cbn [main_loop] in E; rewrite ER in E; discriminate E].
  rewrite (main_loop_cons c w g r0 ER) in E. cbv zeta in E.
  destruct (RunLoop_closes_once c g r0 ER) as (H1 & H2 & H3).
  destruct (ExitCode_eqb (val r0) ExitCode_Main_EventLoopSimReboot) eqn:Ev.
  - apply ExitCode_eqb_eq in Ev. specialize (H3 Ev).
    destruct (main_loop w _) as [r1|] eqn:E1; [|discriminate E].
    injection E as <-. cbn [tr]. destruct (IH _ _ E1) as (I1 & I2 & I3).
    rewrite !calls_app, !length_app. lia.
  - injection E as <-. cbn [tr]. rewrite !calls_app, !length_app.
    cbn [calls filter event_in List.length]. lia.
Qed.

(** In a process that ends, every run that was started was shut down: the
    trace has as many EventLoop_Close calls as EventLoop_Create calls, at
    least one; and every run but the first follows a pause, so that the
    runs number at most one more than the calls of nanosleep. *)
Theorem runs_are_closed_and_restarts_follow_pauses (w : list cycle_env) (r : res Z) :
  main w = Some r ->
  List.length (calls create_call (tr r)) = List.length (calls loop_close_call (tr r))
  /\ (1 <= List.length (calls create_call (tr r)))%nat
  /\ (List.length (calls create_call (tr r))
      <= 1 + List.length (calls nanosleep_call (tr r)))%nat.
Proof.
  rewrite main_eq. destruct (main_loop w initial_globals) as [r'|] eqn:E;
    [|discriminate]. intros H. injection H as <-. cbn [tr].
  destruct (main_loop_balance w _ _ E) as (H1 & H2 & H3).
  assert (T : forall p, p sigaction_SIGTERM = false ->
                        calls p ([Log "High-level intercore comms application\n" [];
                                  Log "Sends data to, and receives data from a real-time capable application.\n" [];
                                  Call sigaction_SIGTERM] ++ tr r') = calls p (tr r')).
  { intros p Hp. rewrite calls_app. cbn [calls filter event_in]. rewrite Hp. reflexivity. }
  rewrite !T by reflexivity. repeat split; assumption.
Qed.

Lemma runs_are_closed_and_restarts_follow_pauses_witness :
  exists r,
    main world_reboot_then_sigterm = Some r
    /\ List.length (calls create_call (tr r)) = 2%nat
    /\ List.length (calls loop_close_call (tr r)) = 2%nat.
Proof.
  destruct (main world_reboot_then_sigterm) as [r|] eqn:E;
    [|vm_compute in E; discriminate E].
  destruct (runs_are_closed_and_restarts_follow_pauses world_reboot_then_sigterm r E)
    as (H1 & _ & _).
  assert (L : List.length (calls create_call (tr r)) = 2%nat)
    by (vm_compute in E; injection E as <-; reflexivity).
  exists r. split; [reflexivity|]. split; [exact L|]. rewrite <- H1. exact L.
Defined.
